(** * Cursor Flow: camera targeting, layout and timeline interaction

    A shallow embedding of the timeline and camera logic of
    [App.tsx] and [components/EditorCanvas.tsx], with the types of [types.ts].

    Numbers.  A JavaScript [number] that holds a finite value is modelled by
    a rational of [Q], compared up to [==].  Arithmetic is the exact one,
    without the rounding of IEEE doubles, except in the split of a clip
    ([App.splitClips]): there every sum and difference is rounded to the
    nearest double ([Double.binary64]), because what a split preserves
    depends on it.  Where the source tests a quotient with
    [Number.isFinite], the division is [Num.div], which returns [None] for
    the non-finite result; the other divisors are non-zero by construction
    (clip dimensions after their fallback) or by the range of the control
    that sets them ([timelineScale]). *)

From Stdlib Require Import ZArith QArith Qminmax Qabs Qround Lqa Lia PeanoNat.
From Stdlib Require Import List Permutation Sorted String Bool.
From Stdlib Require Floats.PrimFloat Floats.FloatOps Floats.SpecFloat.
Import ListNotations.
Open Scope Q_scope.

(** ** Numbers *)

Module Num.

(** [a >= b], [a <= b], [a > b], [a < b] of the source, as booleans. *)
Definition geb (a b : Q) : bool := Qle_bool b a.
Definition leb (a b : Q) : bool := Qle_bool a b.
Definition gtb (a b : Q) : bool := negb (Qle_bool a b).
Definition ltb (a b : Q) : bool := negb (Qle_bool b a).

(** [Math.max] and [Math.min] on two finite numbers. *)
Definition max (a b : Q) : Q := Qmax a b.
Definition min (a b : Q) : Q := Qmin a b.

(** [a / b]; [None] stands for the non-finite results of a division by
    zero ([Infinity], [-Infinity], [NaN]). *)
Definition div (a b : Q) : option Q :=
  if Qeq_bool b 0 then None else Some (a / b).

(** [v || d] on an optional number: [undefined] and [0] are falsy. *)
Definition orElse (v : option Q) (d : Q) : Q :=
  match v with
  | Some w => if Qeq_bool w 0 then d else w
  | None => d
  end.

End Num.

(** ** Doubles *)

(** The values of IEEE 754 binary64 are rationals; an operation of the
    source on doubles gives the double nearest to the exact result, ties
    going to the even significand.  Overflow is not modelled: the times of
    a timeline are far below [2 ^ 1024]. *)
Module Double.

(** [num / den] rounded to the nearest integer, ties to the even one, for
    [num] not negative and [den] positive. *)
Definition roundHalfEven (num den : Z) : Z :=
  let q := (num / den)%Z in
  let r := (num mod den)%Z in
  match (2 * r ?= den)%Z with
  | Lt => q
  | Gt => (q + 1)%Z
  | Eq => if Z.even q then q else (q + 1)%Z
  end.

(** [floor (log2 (a / d))] for positive [a] and [d]. *)
Definition exponent (a d : Z) : Z :=
  let e := (Z.log2 a - Z.log2 d)%Z in
  if (Z.shiftl a (Z.max 0 (- e)) <? Z.shiftl d (Z.max 0 e))%Z
  then (e - 1)%Z else e.

(** Rounding to binary64: 53 significant bits, the unit in the last place
    being at least [2 ^ -1074] (subnormal numbers). *)
Definition binary64 (q : Q) : Q :=
  let n := Qnum q in
  let d := Zpos (Qden q) in
  if (n =? 0)%Z then 0
  else
    let a := Z.abs n in
    let ulp := Z.max (exponent a d - 52) (-1074) in
    let m := roundHalfEven (Z.shiftl a (Z.max 0 (- ulp)))
                           (Z.shiftl d (Z.max 0 ulp)) in
    let v := (Z.sgn n * m)%Z in
    if (0 <=? ulp)%Z then inject_Z (Z.shiftl v ulp)
    else v # Z.to_pos (Z.shiftl 1 (- ulp)).

(** [a + b] and [a - b] on doubles. *)
Definition add (a b : Q) : Q := binary64 (a + b).
Definition sub (a b : Q) : Q := binary64 (a - b).

(** The value of a primitive float of the kernel, which is a binary64 of
    the processor; [None] for infinities and NaN. *)
Definition ofSpec (f : SpecFloat.spec_float) : option Q :=
  match f with
  | SpecFloat.S754_zero _ => Some 0
  | SpecFloat.S754_finite s m e =>
      let v := if s then Zneg m else Zpos m in
      Some (if (0 <=? e)%Z then inject_Z (Z.shiftl v e)
            else v # Z.to_pos (Z.shiftl 1 (- e)))
  | _ => None
  end.
Definition ofFloat (f : PrimFloat.float) : option Q := ofSpec (FloatOps.Prim2SF f).

(** [agrees f q]: the primitive float [f] is finite and its value is [q]. *)
Definition agrees (f : PrimFloat.float) (q : Q) : bool :=
  match ofFloat f with
  | Some r => Qeq_bool r q
  | None => false
  end.

End Double.

(** ** types.ts *)

Module ZoomEvent.
Record t : Type := Build {
  id : string;
  startTime : Q;
  duration : Q;
  x : Q;
  y : Q;
  scale : Q
}.

Definition withStartTime (z : t) (v : Q) : t :=
  Build (id z) v (duration z) (x z) (y z) (scale z).
Definition withDuration (z : t) (v : Q) : t :=
  Build (id z) (startTime z) v (x z) (y z) (scale z).
End ZoomEvent.

Inductive TitleTextAlign : Type := left | center | right.

Module TitleStyle.
Record t : Type := Build {
  fontFamily : string;
  fontSize : Q;
  textAlign : TitleTextAlign;
  textColor : string;
  background : string;
  posX : Q;
  posY : Q
}.
End TitleStyle.

Inductive ClipType : Type := video | title.

Module VideoClip.
Record t : Type := Build {
  id : string;
  startTime : Q;
  duration : Q;
  name : string;
  type : ClipType;
  text : option string;
  titleStyle : option TitleStyle.t;
  source : option string;
  width : option Q;
  height : option Q
}.

(** [{ ...c, startTime: v }] and [{ ...c, duration: v }]. *)
Definition withStartTime (c : t) (v : Q) : t :=
  Build (id c) v (duration c) (name c) (type c) (text c) (titleStyle c)
        (source c) (width c) (height c).
Definition withDuration (c : t) (v : Q) : t :=
  Build (id c) (startTime c) v (name c) (type c) (text c) (titleStyle c)
        (source c) (width c) (height c).
End VideoClip.

Inductive DragKind : Type := zoom | clip.
Inductive DragMode : Type := move | resize.

(** [DragState]: the item variant carries the pointer position and the
    item's start and duration at pointer-down. *)
Inductive DragState : Type :=
| DragItem (type : DragKind) (id : string) (mode : DragMode)
           (startX initialStart initialDuration : Q)
| DragPlayhead.

Inductive AspectRatio : Type :=
| Auto | Ratio16_9 | Ratio9_16 | Ratio1_1 | Ratio4_3 | Ratio21_9.

(** ** components/EditorCanvas.tsx *)

Module EditorCanvas.

(** The predicate of [zooms.find(...)]:
    [currentTime >= z.startTime && currentTime <= z.startTime + z.duration]. *)
Definition zoomContains (currentTime : Q) (z : ZoomEvent.t) : bool :=
  Num.geb currentTime (ZoomEvent.startTime z)
  && Num.leb currentTime (ZoomEvent.startTime z + ZoomEvent.duration z).

(** [const activeZoom = zooms.find(z => ...)]. *)
Definition activeZoom (zooms : list ZoomEvent.t) (currentTime : Q)
  : option ZoomEvent.t :=
  find (zoomContains currentTime) zooms.

Record Size : Type := mkSize { width : Q; height : Q }.

Record Fitted : Type :=
  mkFitted { f_width : Q; f_height : Q; contentHeight : Q }.

Section Props.

(** The props the layout and camera code reads. *)
Variable activeClip : option VideoClip.t.
Variable showWindowFrame : bool.
Variable contentScale : Q.

Definition headerH : Q := if showWindowFrame then 32 else 0.

(** [activeClip.width || 1920] and [activeClip.height || 1080]. *)
Definition clipW (c : VideoClip.t) : Q := Num.orElse (VideoClip.width c) 1920.
Definition clipH (c : VideoClip.t) : Q := Num.orElse (VideoClip.height c) 1080.

Definition getContainerDimensions (ratio : AspectRatio) : Size :=
  match ratio with
  | Auto =>
      match activeClip with
      | None => mkSize 800 450
      | Some c =>
          let contentRatio := (clipH c + headerH) / clipW c in
          let targetW := 800 in
          let effectiveScale := Num.min contentScale 1 in
          let targetH :=
            targetW * (effectiveScale * contentRatio + (1 - effectiveScale)) in
          mkSize targetW targetH
      end
  | Ratio16_9 => mkSize 800 450
  | Ratio9_16 => mkSize 360 640
  | Ratio1_1 => mkSize 500 500
  | Ratio4_3 => mkSize 640 480
  | Ratio21_9 => mkSize 800 340
  end.

(** [getFittedDimensions], with the container size it closes over. *)
Definition getFittedDimensions (containerWidth containerHeight : Q) : Fitted :=
  match activeClip with
  | None => mkFitted containerWidth containerHeight containerHeight
  | Some c =>
      let clipRatio := clipW c / clipH c in
      let w := containerWidth in
      let contentH := w / clipRatio in
      let h := contentH + headerH in
      if Num.gtb h (containerHeight + 0.5) then
        let h := containerHeight in
        let contentH := h - headerH in
        let w := contentH * clipRatio in
        mkFitted w h contentH
      else mkFitted w h contentH
  end.

(** The value the first effect gives to [targetScaleMV]. *)
Definition targetScale (activeZoom : option ZoomEvent.t) : Q :=
  match activeZoom with
  | Some z => ZoomEvent.scale z
  | None => contentScale
  end.

End Props.

(** One axis of the zoom targeting effect: focus point, ideal
    translation, limit and clamped target. *)
Definition focusPx (coord dimension : Q) : Q := ((coord - 50) / 100) * dimension.
Definition idealCam (coord dimension s : Q) : Q := - focusPx coord dimension * s.
Definition maxOffset (dimension s : Q) : Q := (dimension / 2) * (s - 1).
Definition clampedTarget (coord dimension s : Q) : Q :=
  Num.max (- maxOffset dimension s)
          (Num.min (maxOffset dimension s) (idealCam coord dimension s)).

(** The values the second effect gives to [targetCamX] and [targetCamY]. *)
Definition targetCam (activeZoom : option ZoomEvent.t)
           (containerWidth containerHeight : Q) : Q * Q :=
  match activeZoom with
  | Some z =>
      (clampedTarget (ZoomEvent.x z) containerWidth (ZoomEvent.scale z),
       clampedTarget (ZoomEvent.y z) containerHeight (ZoomEvent.scale z))
  | None => (0, 0)
  end.

End EditorCanvas.

(** ** App.tsx *)

Module App.

Definition DEFAULT_DURATION : Q := 15.

(** [MediaRecorder.state]. *)
Inductive RecordingState : Type := inactive | recording | paused.

(** What the handlers read from the timeline element:
    [getBoundingClientRect().left] and [scrollLeft]. *)
Record TimelineEl : Type := mkTimelineEl { rectLeft : Q; scrollLeft : Q }.

(** The state and refs of the [App] component that the timeline and
    playback code reads and writes. *)
Record State : Type := mkState {
  currentTime : Q;
  isPlaying : bool;
  isPlayingRef : bool;
  previousTimeRef : option Q;
  exportRecorderRef : option RecordingState;
  zooms : list ZoomEvent.t;
  clips : list VideoClip.t;
  selectedZoomId : option string;
  selectedClipId : option string;
  dragState : option DragState;
  timelineScale : Q;
  timelineRef : option TimelineEl
}.

Definition setCurrentTime (v : Q) (s : State) : State :=
  mkState v (isPlaying s) (isPlayingRef s) (previousTimeRef s)
          (exportRecorderRef s) (zooms s) (clips s) (selectedZoomId s)
          (selectedClipId s) (dragState s) (timelineScale s) (timelineRef s).
Definition setIsPlaying (v : bool) (s : State) : State :=
  mkState (currentTime s) v (isPlayingRef s) (previousTimeRef s)
          (exportRecorderRef s) (zooms s) (clips s) (selectedZoomId s)
          (selectedClipId s) (dragState s) (timelineScale s) (timelineRef s).
Definition setIsPlayingRef (v : bool) (s : State) : State :=
  mkState (currentTime s) (isPlaying s) v (previousTimeRef s)
          (exportRecorderRef s) (zooms s) (clips s) (selectedZoomId s)
          (selectedClipId s) (dragState s) (timelineScale s) (timelineRef s).
Definition setPreviousTimeRef (v : option Q) (s : State) : State :=
  mkState (currentTime s) (isPlaying s) (isPlayingRef s) v
          (exportRecorderRef s) (zooms s) (clips s) (selectedZoomId s)
          (selectedClipId s) (dragState s) (timelineScale s) (timelineRef s).
Definition setExportRecorderRef (v : option RecordingState) (s : State) : State :=
  mkState (currentTime s) (isPlaying s) (isPlayingRef s) (previousTimeRef s)
          v (zooms s) (clips s) (selectedZoomId s)
          (selectedClipId s) (dragState s) (timelineScale s) (timelineRef s).
Definition setZooms (v : list ZoomEvent.t) (s : State) : State :=
  mkState (currentTime s) (isPlaying s) (isPlayingRef s) (previousTimeRef s)
          (exportRecorderRef s) v (clips s) (selectedZoomId s)
          (selectedClipId s) (dragState s) (timelineScale s) (timelineRef s).
Definition setClips (v : list VideoClip.t) (s : State) : State :=
  mkState (currentTime s) (isPlaying s) (isPlayingRef s) (previousTimeRef s)
          (exportRecorderRef s) (zooms s) v (selectedZoomId s)
          (selectedClipId s) (dragState s) (timelineScale s) (timelineRef s).
Definition setSelectedZoomId (v : option string) (s : State) : State :=
  mkState (currentTime s) (isPlaying s) (isPlayingRef s) (previousTimeRef s)
          (exportRecorderRef s) (zooms s) (clips s) v
          (selectedClipId s) (dragState s) (timelineScale s) (timelineRef s).
Definition setSelectedClipId (v : option string) (s : State) : State :=
  mkState (currentTime s) (isPlaying s) (isPlayingRef s) (previousTimeRef s)
          (exportRecorderRef s) (zooms s) (clips s) (selectedZoomId s)
          v (dragState s) (timelineScale s) (timelineRef s).
Definition setDragState (v : option DragState) (s : State) : State :=
  mkState (currentTime s) (isPlaying s) (isPlayingRef s) (previousTimeRef s)
          (exportRecorderRef s) (zooms s) (clips s) (selectedZoomId s)
          (selectedClipId s) v (timelineScale s) (timelineRef s).

(** *** Derived timeline duration *)

Definition timelineDuration (clips : list VideoClip.t) (zooms : list ZoomEvent.t) : Q :=
  let clipEnd :=
    fold_left (fun max c => Num.max max (VideoClip.startTime c + VideoClip.duration c))
              clips 0 in
  let zoomEnd :=
    fold_left (fun max z => Num.max max (ZoomEvent.startTime z + ZoomEvent.duration z))
              zooms 0 in
  let next := Num.max (Num.max DEFAULT_DURATION clipEnd) zoomEnd in
  if Num.gtb next 0 then next else DEFAULT_DURATION.

Definition duration (s : State) : Q := timelineDuration (clips s) (zooms s).

(** *** Playback clock *)

(** [exportRecorderRef.current.stop()] when the recorder exists and is
    not inactive; a stopped recorder is inactive. *)
Definition stopExportRecorder (s : State) : State :=
  match exportRecorderRef s with
  | Some inactive => s
  | Some _ => setExportRecorderRef (Some inactive) s
  | None => s
  end.

(** The updater passed to [setCurrentTime] in [animate], together with
    the two writes it makes when the end is reached. *)
Definition advance (deltaTime : Q) (s : State) : State :=
  let next := currentTime s + deltaTime in
  if Num.geb next (duration s) then
    setCurrentTime 0 (stopExportRecorder (setIsPlaying false s))
  else setCurrentTime next s.

(** One call of [animate(time)]. *)
Definition animate (time : Q) (s : State) : State :=
  if negb (isPlayingRef s) then setPreviousTimeRef None s
  else
    let s1 :=
      match previousTimeRef s with
      | Some previous => advance ((time - previous) / 1000) s
      | None => s
      end in
    setPreviousTimeRef (Some time) s1.

(** The two effects on [isPlaying]: the ref follows the state, and a
    paused player forgets the previous frame time. *)
Definition effectIsPlaying (s : State) : State :=
  let s1 := setIsPlayingRef (isPlaying s) s in
  if isPlaying s1 then s1 else setPreviousTimeRef None s1.

(** The animation loop over the timestamps of successive frames. *)
Definition frame (time : Q) (s : State) : State := effectIsPlaying (animate time s).
Definition frames (times : list Q) (s : State) : State :=
  fold_left (fun st time => frame time st) times s.

(** *** Pointer handling on the timeline *)

Definition relativeX (el : TimelineEl) (clientX : Q) : Q :=
  clientX - rectLeft el + scrollLeft el - 16.

Definition dragKind_eqb (a b : DragKind) : bool :=
  match a, b with zoom, zoom | clip, clip => true | _, _ => false end.
Definition dragMode_eqb (a b : DragMode) : bool :=
  match a, b with move, move | resize, resize => true | _, _ => false end.

(** The callbacks given to [prev.map] while an item is dragged. *)
Definition dragZoom (id : string) (mode : DragMode)
           (initialStart initialDuration timeDelta : Q) (z : ZoomEvent.t) : ZoomEvent.t :=
  if negb (String.eqb (ZoomEvent.id z) id) then z
  else match mode with
       | move => ZoomEvent.withStartTime z (Num.max 0 (initialStart + timeDelta))
       | resize => ZoomEvent.withDuration z (Num.max 0.5 (initialDuration + timeDelta))
       end.

Definition dragClip (id : string) (mode : DragMode)
           (initialStart initialDuration timeDelta : Q) (c : VideoClip.t) : VideoClip.t :=
  if negb (String.eqb (VideoClip.id c) id) then c
  else match mode with
       | move => VideoClip.withStartTime c (Num.max 0 (initialStart + timeDelta))
       | resize => VideoClip.withDuration c (Num.max 0.5 (initialDuration + timeDelta))
       end.

(** [handleMouseMove]; the window listener exists only while
    [dragState] is set.  [timelineScale] comes from a range input with
    minimum 40, so the quotients are by a non-zero number. *)
Definition handleMouseMove (clientX : Q) (s : State) : State :=
  match dragState s, timelineRef s with
  | Some ds, Some el =>
      let trackWidth := duration s * timelineScale s in
      let relX := relativeX el clientX in
      match ds with
      | DragPlayhead =>
          let clampedX := Num.max 0 (Num.min trackWidth relX) in
          setCurrentTime (clampedX / timelineScale s) s
      | DragItem kind id mode startX initialStart initialDuration =>
          let pixelDelta := relX - startX in
          let timeDelta := pixelDelta / timelineScale s in
          match kind with
          | zoom =>
              setZooms (map (dragZoom id mode initialStart initialDuration timeDelta)
                            (zooms s)) s
          | clip =>
              setClips (map (dragClip id mode initialStart initialDuration timeDelta)
                            (clips s)) s
          end
      end
  | _, _ => s
  end.

(** [handleMouseUp], attached with [handleMouseMove]. *)
Definition handleMouseUp (s : State) : State :=
  match dragState s with
  | Some DragPlayhead => setDragState None s
  | _ => s
  end.

Definition handleScrubStart (clientX : Q) (s : State) : State :=
  match timelineRef s with
  | None => s
  | Some el =>
      match dragState s with
      | Some (DragItem _ _ _ _ _ _) => setDragState None s
      | _ =>
          let trackWidth := duration s * timelineScale s in
          let relX := relativeX el clientX in
          let clampedX := Num.max 0 (Num.min trackWidth relX) in
          setDragState (Some DragPlayhead)
            (setSelectedClipId None
               (setSelectedZoomId None
                  (setCurrentTime (clampedX / timelineScale s) s)))
      end
  end.

(** The updater passed to [setDragState] by [onClipInteraction] and
    [onZoomInteraction]. *)
Definition toggleDrag (kind : DragKind) (id : string) (mode : DragMode)
           (contentX start dur : Q) (prev : option DragState) : option DragState :=
  match prev with
  | Some (DragItem kind' id' mode' _ _ _) =>
      if dragKind_eqb kind' kind && String.eqb id' id && dragMode_eqb mode' mode
      then None
      else Some (DragItem kind id mode contentX start dur)
  | _ => Some (DragItem kind id mode contentX start dur)
  end.

Definition onClipInteraction (clientX : Q) (id : string) (mode : DragMode)
           (start dur : Q) (s : State) : State :=
  match timelineRef s with
  | None => s
  | Some el =>
      let contentX := relativeX el clientX in
      let s1 := setSelectedZoomId None (setSelectedClipId (Some id) s) in
      setDragState (toggleDrag clip id mode contentX start dur (dragState s1)) s1
  end.

Definition onZoomInteraction (clientX : Q) (id : string) (mode : DragMode)
           (start dur : Q) (s : State) : State :=
  match timelineRef s with
  | None => s
  | Some el =>
      let contentX := relativeX el clientX in
      let s1 := setSelectedClipId None (setSelectedZoomId (Some id) s) in
      setDragState (toggleDrag zoom id mode contentX start dur (dragState s1)) s1
  end.

(** [TimelineTracks] binds a pointer-down on an item (body: move, trailing
    handle: resize) to the handler with the item's own id, start and
    duration. *)
Definition pointerDownClip (clientX : Q) (c : VideoClip.t) (mode : DragMode)
  : State -> State :=
  onClipInteraction clientX (VideoClip.id c) mode
                    (VideoClip.startTime c) (VideoClip.duration c).
Definition pointerDownZoom (clientX : Q) (z : ZoomEvent.t) (mode : DragMode)
  : State -> State :=
  onZoomInteraction clientX (ZoomEvent.id z) mode
                    (ZoomEvent.startTime z) (ZoomEvent.duration z).

(** *** Split *)

(** [Array.prototype.findIndex]: [-1] when no element satisfies [p]. *)
Fixpoint findIndexFrom {A} (p : A -> bool) (l : list A) (i : Z) : Z :=
  match l with
  | [] => (-1)%Z
  | a :: l' => if p a then i else findIndexFrom p l' (i + 1)%Z
  end.
Definition findIndex {A} (p : A -> bool) (l : list A) : Z := findIndexFrom p l 0%Z.

(** [Array.prototype.splice(start, deleteCount, ...items)] on a copy. *)
Definition splice {A} (l : list A) (start deleteCount : Z) (items : list A) : list A :=
  let len := Z.of_nat (List.length l) in
  let from := if (start <? 0)%Z then Z.max (len + start) 0 else Z.min start len in
  let del := Z.min (Z.max deleteCount 0) (len - from) in
  firstn (Z.to_nat from) l ++ items ++ skipn (Z.to_nat (from + del)) l.

(** The test of [clips.find] in [handleSplit]; the sum is the one of
    doubles. *)
Definition strictlyInside (currentTime : Q) (c : VideoClip.t) : bool :=
  Num.gtb currentTime (VideoClip.startTime c)
  && Num.ltb currentTime (Double.add (VideoClip.startTime c) (VideoClip.duration c)).

(** [handleSplit] on the clip list; [newId] is the value of
    [crypto.randomUUID()].  The two differences are those of doubles and
    [0.1] is the double the literal denotes. *)
Definition splitClips (newId : string) (currentTime : Q) (clips : list VideoClip.t)
  : list VideoClip.t :=
  match find (strictlyInside currentTime) clips with
  | None => clips
  | Some clipToSplit =>
      let firstDuration := Double.sub currentTime (VideoClip.startTime clipToSplit) in
      let secondDuration := Double.sub (VideoClip.duration clipToSplit) firstDuration in
      if Num.ltb firstDuration (Double.binary64 0.1)
         || Num.ltb secondDuration (Double.binary64 0.1) then clips
      else
        let clipA := VideoClip.withDuration clipToSplit firstDuration in
        let clipB :=
          VideoClip.Build newId currentTime secondDuration
            (VideoClip.name clipToSplit) (VideoClip.type clipToSplit)
            (VideoClip.text clipToSplit) (VideoClip.titleStyle clipToSplit)
            (VideoClip.source clipToSplit) (VideoClip.width clipToSplit)
            (VideoClip.height clipToSplit) in
        let idx :=
          findIndex (fun c => String.eqb (VideoClip.id c) (VideoClip.id clipToSplit))
                    clips in
        splice clips idx 1 [clipA; clipB]
  end.

Definition handleSplit (newId : string) (s : State) : State :=
  setClips (splitClips newId (currentTime s) (clips s)) s.

(** *** Pointer samples during export capture *)

Record Bounds : Type := mkBounds { b_x : Q; b_y : Q; b_width : Q; b_height : Q }.
Record MousePosition : Type := mkMousePosition { m_x : Q; m_y : Q }.
Record CursorSample : Type := mkSample { x : Q; y : Q; time : Q }.

Section Capture.

(** What the listener closes over: the window bounds and
    [captureStart = performance.now()] at the start of the capture. *)
Variable bounds : option Bounds.
Variable captureStart : Q.

(** The listener given to [onMousePosition]; [now] is
    [performance.now()] at the call.  [Number.isFinite] fails exactly
    when the division has no finite result. *)
Definition onMousePosition (now : Q) (data : MousePosition)
           (exportCursorData : list CursorSample) : list CursorSample :=
  match bounds with
  | None => exportCursorData
  | Some b =>
      let t := (now - captureStart) / 1000 in
      match Num.div (m_x data - b_x b) (b_width b),
            Num.div (m_y data - b_y b) (b_height b) with
      | Some nx, Some ny =>
          let x := Num.max 0 (Num.min 1 nx) in
          let y := Num.max 0 (Num.min 1 ny) in
          exportCursorData ++ [mkSample x y t]
      | _, _ => exportCursorData
      end
  end.

(** A capture: the sample list is reset, then the listener runs on
    each reported position. *)
Definition collect (events : list (Q * MousePosition)) : list CursorSample :=
  fold_left (fun acc e => onMousePosition (fst e) (snd e) acc) events [].

End Capture.

End App.

(** ** App.tsx: what the timeline draws *)

Module TimelineView.

(** [timelineContentWidth]:
    [Math.max(600, Math.ceil(timelineDuration * timelineScale) + 32)]. *)
Definition timelineContentWidth (timelineDuration timelineScale : Q) : Q :=
  Num.max 600 (inject_Z (Qceiling (timelineDuration * timelineScale)) + 32).

(** [Playhead]: [left: 16 + currentTime * scale]. *)
Definition playheadLeft (currentTime scale : Q) : Q := 16 + currentTime * scale.

(** [TimelineTracks]: [left = 16 + startTime * scale] and
    [width = Math.max(2, duration * scale)] of a clip or a zoom. *)
Definition itemLeft (startTime scale : Q) : Q := 16 + startTime * scale.
Definition itemWidth (duration scale : Q) : Q := Num.max 2 (duration * scale).

(** The pointer position in the coordinates of the scrolled content, in
    which the lefts above are given. *)
Definition contentX (el : App.TimelineEl) (clientX : Q) : Q :=
  clientX - App.rectLeft el + App.scrollLeft el.

End TimelineView.

(** ** App.tsx: editing the zoom events and the clips *)

Module Edit.

(** [selectedZoomId === id], [selectedClipId === id]. *)
Definition selected_eqb (sel : option string) (id : string) : bool :=
  match sel with
  | Some i => String.eqb i id
  | None => false
  end.


Definition clearZooms (s : App.State) : App.State :=
  App.setSelectedZoomId None (App.setZooms [] s).

Definition removeZoom (id : string) (s : App.State) : App.State :=
  let s1 :=
    App.setZooms
      (filter (fun z => negb (String.eqb (ZoomEvent.id z) id)) (App.zooms s)) s in
  if selected_eqb (App.selectedZoomId s) id then App.setSelectedZoomId None s1
  else s1.





(** [handleCanvasDoubleClick]. *)
Definition handleCanvasDoubleClick (newId : string) (xPercent yPercent : Q)
           (s : App.State) : App.State :=
  let newZoom := ZoomEvent.Build newId (App.currentTime s) 2.0 xPercent yPercent 1.5 in
  App.setSelectedZoomId (Some newId) (App.setZooms (App.zooms s ++ [newZoom]) s).

(** [handleDeleteClip]; an empty id is falsy. *)
Definition handleDeleteClip (s : App.State) : App.State :=
  match App.selectedClipId s with
  | Some id =>
      if String.eqb id "" then s
      else
        App.setSelectedClipId None
          (App.setClips
             (filter (fun c => negb (String.eqb (VideoClip.id c) id)) (App.clips s)) s)
  | None => s
  end.

(** [currentTime >= c.startTime && currentTime < c.startTime + c.duration]. *)
Definition halfOpenContains (currentTime : Q) (c : VideoClip.t) : bool :=
  Num.geb currentTime (VideoClip.startTime c)
  && Num.ltb currentTime (VideoClip.startTime c + VideoClip.duration c).

Definition isVideo (c : VideoClip.t) : bool :=
  match VideoClip.type c with
  | video => true
  | title => false
  end.

(** [clips.slice().reverse().find(...)], the active clip of [App]. *)
Definition activeClip (clips : list VideoClip.t) (currentTime : Q)
  : option VideoClip.t :=
  find (halfOpenContains currentTime) (rev clips).

(** [handleAddTitleClip]; [activeVideoClip?.width] is absent when there is
    no active video clip. *)
Definition handleAddTitleClip (newId : string) (text : string)
           (style : TitleStyle.t) (s : App.State) : App.State :=
  let activeVideoClip :=
    find (fun c => isVideo c && halfOpenContains (App.currentTime s) c)
         (rev (App.clips s)) in
  let newClip :=
    VideoClip.Build newId (App.currentTime s) 3.0 "Title Card" title
      (Some text) (Some style) None
      (match activeVideoClip with Some v => VideoClip.width v | None => None end)
      (match activeVideoClip with Some v => VideoClip.height v | None => None end) in
  App.setSelectedClipId (Some newId) (App.setClips (App.clips s ++ [newClip]) s).

(** [c.source && c.source.startsWith('blob:')]. *)
Definition isBlobSource (c : VideoClip.t) : bool :=
  match VideoClip.source c with
  | Some src => negb (String.eqb src "") && String.prefix "blob:" src
  | None => false
  end.

Definition withoutSource (c : VideoClip.t) : VideoClip.t :=
  VideoClip.Build (VideoClip.id c) (VideoClip.startTime c) (VideoClip.duration c)
                  (VideoClip.name c) (VideoClip.type c) (VideoClip.text c)
                  (VideoClip.titleStyle c) None (VideoClip.width c)
                  (VideoClip.height c).


(** What [getMetadata] of the recording's stop handler learns from the
    video element: [onloadedmetadata] with [duration] ([None] when it is
    not finite), [videoWidth] and [videoHeight], or [onerror]. *)
Inductive MetadataEvent : Type :=
| LoadedMetadata (duration : option Q) (videoWidth videoHeight : Q)
| MetadataError.

Record Metadata : Type := mkMetadata { md_duration : Q; md_width : Q; md_height : Q }.

Definition getMetadata (e : MetadataEvent) : Metadata :=
  match e with
  | LoadedMetadata duration videoWidth videoHeight =>
      mkMetadata (match duration with Some d => d | None => 10 end)
                 (Num.orElse (Some videoWidth) 1920)
                 (Num.orElse (Some videoHeight) 1080)
  | MetadataError => mkMetadata 10 1920 1080
  end.

(** [handleStop] of [startRecording], on the clips, the selection and the
    current time; [rawUrl] is the object URL of the recorded blob. *)
Definition handleStop (newId rawUrl : string) (e : MetadataEvent) (s : App.State)
  : App.State :=
  let md := getMetadata e in
  let newClip :=
    VideoClip.Build newId 0 (md_duration md) "Screen Recording" video None None
                    (Some rawUrl) (Some (md_width md)) (Some (md_height md)) in
  let filtered :=
    filter (fun c => negb (String.eqb (VideoClip.name c) "Demo Project"))
           (App.clips s) in
  App.setCurrentTime 0
    (App.setSelectedClipId (Some newId) (App.setClips (filtered ++ [newClip]) s)).

(** [clips.find(c => c.type === 'video' && c.source)] of
    [autoGenerateZooms]. *)
Definition hasSource (c : VideoClip.t) : bool :=
  match VideoClip.source c with
  | Some src => negb (String.eqb src "")
  | None => false
  end.

(** The zoom pushed at step [i] of the loop of [autoGenerateZooms];
    [uuid] and [random] give the successive values of
    [crypto.randomUUID()] and [Math.random()]. *)
Definition generatedZoom (uuid : nat -> string) (random : nat -> Q)
           (timelineDuration : Q) (count i : nat) : ZoomEvent.t :=
  ZoomEvent.Build (uuid i)
    ((inject_Z (Z.of_nat i) + 1) * (timelineDuration / (inject_Z (Z.of_nat count) + 1)))
    2.5
    (20 + random (2 * i)%nat * 60)
    (20 + random (2 * i + 1)%nat * 60)
    1.5.

(** [autoGenerateZooms] when no video clip has a source: three generated
    zooms replace the zoom events.  With such a clip the zooms come from
    the suggestion service, which is not part of this model ([None]). *)
Definition autoGenerateZooms (uuid : nat -> string) (random : nat -> Q)
           (s : App.State) : option App.State :=
  match find (fun c => isVideo c && hasSource c) (App.clips s) with
  | Some _ => None
  | None =>
      let count := 3%nat in
      let generated :=
        map (generatedZoom uuid random (App.duration s) count) (seq 0 count) in
      Some (App.setSelectedZoomId None (App.setZooms generated s))
  end.

End Edit.

(** ** components/EditorCanvas.tsx: double click *)

Module CanvasEvents.

(** [containerRef.current.getBoundingClientRect()]. *)
Record Rect : Type := mkRect { left : Q; top : Q; width : Q; height : Q }.

(** [handleDoubleClick]: the percentages given to [onCanvasDoubleClick],
    or nothing without the container.  The rectangle of a laid out
    container has a non-zero size. *)
Definition handleDoubleClick (containerRef : option Rect) (clientX clientY : Q)
  : option (Q * Q) :=
  match containerRef with
  | None => None
  | Some rect =>
      let offsetX := clientX - left rect in
      let offsetY := clientY - top rect in
      let xPercent := (offsetX / width rect) * 100 in
      let yPercent := (offsetY / height rect) * 100 in
      Some (xPercent, yPercent)
  end.

(** The double click on the canvas as [App] sees it: the handler is
    bound only while a clip of type video is active. *)
Definition doubleClick (activeClip : option VideoClip.t) (containerRef : option Rect)
           (clientX clientY : Q) (newId : string) (s : App.State) : App.State :=
  match activeClip with
  | Some c =>
      if Edit.isVideo c then
        match handleDoubleClick containerRef clientX clientY with
        | Some (xPercent, yPercent) =>
            Edit.handleCanvasDoubleClick newId xPercent yPercent s
        | None => s
        end
      else s
  | None => s
  end.

End CanvasEvents.

(** ** App.tsx: play and pause *)

Module Playback.

(** [togglePlay], followed by the effects that run when [isPlaying]
    changes. *)
Definition togglePlay (s : App.State) : App.State :=
  App.effectIsPlaying (App.setIsPlaying (negb (App.isPlaying s)) s).

End Playback.

(** ** services/videoProcessingService.ts *)

Module VideoProcessingService.

Inductive JobState : Type := processing | completed | failed.

Record ProcessingJob : Type :=
  mkJob { status : JobState; progress : Q; error : option string }.

(** What an awaited call of the backend gives: its value, or the message
    of the error it throws. *)
Inductive Awaited (A : Type) : Type :=
| Returned (a : A)
| Thrown (message : string).
Arguments Returned {A} a.
Arguments Thrown {A} message.

(** The status texts passed to [onProgress]: 'Uploading video...',
    'Processing started...', 'Processing: <progress>%',
    'Downloading result...' and 'Complete!'. *)
Inductive StatusText : Type :=
| UploadingVideo
| ProcessingStarted
| ProcessingPercent (progress : Q)
| DownloadingResult
| Complete.

(** One call of [onProgress(progress, status)]. *)
Definition Report : Type := (Q * StatusText)%type.

(** How the promise ends; [StillPolling] when the loop is still waiting
    after the responses considered. *)
Inductive Outcome (Blob : Type) : Type :=
| Resolved (result : Blob)
| Rejected (message : string)
| StillPolling.
Arguments Resolved {Blob} result.
Arguments Rejected {Blob} message.
Arguments StillPolling {Blob}.

(** [status.error || 'Processing failed']. *)
Definition failureMessage (st : ProcessingJob) : string :=
  match error st with
  | Some e => if String.eqb e "" then "Processing failed" else e
  | None => "Processing failed"
  end.

Section Process.

Context {Blob : Type}.

(** The results of [downloadProcessedVideo(jobId)] and [cleanupJob(jobId)]. *)
Variable download : Awaited Blob.
Variable cleanup : Awaited unit.

(** The [while (true)] loop over the successive results of
    [getJobStatus(jobId)], with the reports made so far. *)
Fixpoint poll (responses : list (Awaited ProcessingJob)) (reports : list Report)
  : list Report * Outcome Blob :=
  match responses with
  | [] => (reports, StillPolling)
  | Thrown message :: _ => (reports, Rejected message)
  | Returned st :: rest =>
      match status st with
      | completed =>
          let reports := reports ++ [(95, DownloadingResult)] in
          match download with
          | Thrown message => (reports, Rejected message)
          | Returned result =>
              match cleanup with
              | Thrown message => (reports, Rejected message)
              | Returned _ => (reports ++ [(100, Complete)], Resolved result)
              end
          end
      | failed => (reports, Rejected (failureMessage st))
      | processing =>
          let scaledProgress := 10 + progress st * 0.85 in
          poll rest (reports ++ [(scaledProgress, ProcessingPercent (progress st))])
      end
  end.

(** [processVideoWithProgress]; [upload] is the result of
    [processVideo(videoBlob, cursorData, options)], the job id. *)
Definition processVideoWithProgress (upload : Awaited string)
           (responses : list (Awaited ProcessingJob)) : list Report * Outcome Blob :=
  let reports := [(0, UploadingVideo)] in
  match upload with
  | Thrown message => (reports, Rejected message)
  | Returned jobId => poll responses (reports ++ [(5, ProcessingStarted)])
  end.

End Process.

End VideoProcessingService.

(** ** electron/main.js: mouse tracking *)

Module ElectronMain.

(** [lastX] and [lastY] of [startMouseTracking]. *)
Record Last : Type := mkLast { lastX : Z; lastY : Z }.

(** The 'mouse-position' message. *)
Record MouseMessage : Type := mkMessage { x : Z; y : Z; timestamp : Z }.

(** One run of the interval: the mouse position read, whether the main
    window exists and is not destroyed, and [Date.now()]. *)
Record Poll : Type := mkPoll { p_x : Z; p_y : Z; windowAlive : bool; now : Z }.

Definition initial : Last := mkLast (-1) (-1).

(** The callback of [setInterval]: the new [lastX], [lastY] and the
    message sent, if any. *)
Definition tick (p : Poll) (last : Last) : Last * option MouseMessage :=
  if ((p_x p =? lastX last) && (p_y p =? lastY last))%Z then (last, None)
  else
    (mkLast (p_x p) (p_y p),
     if windowAlive p then Some (mkMessage (p_x p) (p_y p) (now p)) else None).

(** The messages sent over successive runs of the interval. *)
Fixpoint run (polls : list Poll) (last : Last) : Last * list MouseMessage :=
  match polls with
  | [] => (last, [])
  | p :: rest =>
      let (last1, sent) := tick p last in
      let (last2, later) := run rest last1 in
      (last2, match sent with Some m => m :: later | None => later end)
  end.

End ElectronMain.

(** ** services/geminiService.ts: the frames sent for analysis *)

Module GeminiService.

Record Frame : Type := mkFrame { time : Q; base64 : string }.

Section Extract.

(** [canvas.toDataURL('image/jpeg', 0.7)] once the video has been sought
    to a time and drawn; the 2D context of the canvas exists. *)
Variable toDataURL : Q -> string.
Variables duration interval : Q.

(** [captureFrame], which calls itself after each frame until
    [currentTime >= duration]; [fuel] bounds the number of calls. *)
Fixpoint captureFrame (fuel : nat) (currentTime : Q) (frames : list Frame)
  : option (list Frame) :=
  match fuel with
  | O => None
  | S fuel' =>
      if Num.geb currentTime duration then Some frames
      else captureFrame fuel' (currentTime + interval)
                        (frames ++ [mkFrame currentTime (toDataURL currentTime)])
  end.

(** [extractFramesFromVideo]: [frames] starts empty, [currentTime] at 0. *)
Definition extractFramesFromVideo (fuel : nat) : option (list Frame) :=
  captureFrame fuel 0 [].

End Extract.

(** The frames of [analyzeVideoForZooms]:
    [extractFramesFromVideo(videoSrc, Math.min(duration, 30), 3.0)]. *)
Definition framesToAnalyze (toDataURL : Q -> string) (duration : Q) (fuel : nat)
  : option (list Frame) :=
  extractFramesFromVideo toDataURL (Num.min duration 30) 3.0 fuel.

End GeminiService.

(** ** Extracted frames *)

(** A frame taken before the end of the analysed duration, at a multiple
    of 3 seconds, with the image drawn at its time. *)
Definition frameOk (toDataURL : Q -> string) (duration : Q)
           (f : GeminiService.Frame) : Prop :=
  (0 <= GeminiService.time f < duration) /\
  GeminiService.base64 f = toDataURL (GeminiService.time f) /\
  exists k : nat, GeminiService.time f == inject_Z (Z.of_nat k) * 3.

(** ** Progress reports *)

(** A reported progress is a percentage; reports are compared by their
    progress.  The same for the progress the backend answers with. *)
Definition inPercent (r : VideoProcessingService.Report) : Prop := 0 <= fst r <= 100.
Definition reportLe (a b : VideoProcessingService.Report) : Prop := fst a <= fst b.
Definition backendInRange
           (r : VideoProcessingService.Awaited VideoProcessingService.ProcessingJob)
  : Prop :=
  match r with
  | VideoProcessingService.Returned st =>
      0 <= VideoProcessingService.progress st <= 100
  | VideoProcessingService.Thrown _ => True
  end.
Definition backendLe
           (a b : VideoProcessingService.Awaited VideoProcessingService.ProcessingJob)
  : Prop :=
  match a, b with
  | VideoProcessingService.Returned x, VideoProcessingService.Returned y =>
      VideoProcessingService.progress x <= VideoProcessingService.progress y
  | _, _ => True
  end.


(** ** Mouse messages *)

(** Two messages that report different positions. *)
Definition moved (a b : ElectronMain.MouseMessage) : Prop :=
  (ElectronMain.x a, ElectronMain.y a) <> (ElectronMain.x b, ElectronMain.y b).

(** The position of a poll and of a message, as a [Last]. *)
Definition pollAt (p : ElectronMain.Poll) : ElectronMain.Last :=
  ElectronMain.mkLast (ElectronMain.p_x p) (ElectronMain.p_y p).
Definition messageAt (m : ElectronMain.MouseMessage) : ElectronMain.Last :=
  ElectronMain.mkLast (ElectronMain.x m) (ElectronMain.y m).

(** What a clip shows, apart from when: everything but its id, start and
    duration. *)
Definition shown (c : VideoClip.t)
  : string * ClipType * option string * option TitleStyle.t * option string
    * option Q * option Q :=
  (VideoClip.name c, VideoClip.type c, VideoClip.text c, VideoClip.titleStyle c,
   VideoClip.source c, VideoClip.width c, VideoClip.height c).

(** ** Stored samples *)

(** A stored pointer sample is normalized: both coordinates in [0, 1] and
    a time that is not negative. *)
Definition sampleOk (smp : App.CursorSample) : Prop :=
  (0 <= App.x smp <= 1) /\ (0 <= App.y smp <= 1) /\ 0 <= App.time smp.

(** ** Well-formed items *)

(** The bounds the drag handlers enforce on an item: a start that is not
    negative and a duration of at least half a second. *)
Definition zoomInRange (z : ZoomEvent.t) : Prop :=
  0 <= ZoomEvent.startTime z /\ 0.5 <= ZoomEvent.duration z.
Definition clipInRange (c : VideoClip.t) : Prop :=
  0 <= VideoClip.startTime c /\ 0.5 <= VideoClip.duration c.



(** The time at which an item ends. *)
Definition clipEnd (c : VideoClip.t) : Q := VideoClip.startTime c + VideoClip.duration c.

(** The two differences of a split of [c] at [t] are exact: no rounding
    takes place. *)
Definition exactSplit (t : Q) (c : VideoClip.t) : Prop :=
  Double.sub t (VideoClip.startTime c) == t - VideoClip.startTime c /\
  Double.sub (VideoClip.duration c) (Double.sub t (VideoClip.startTime c))
  == VideoClip.duration c - Double.sub t (VideoClip.startTime c).
Definition zoomEnd (z : ZoomEvent.t) : Q := ZoomEvent.startTime z + ZoomEvent.duration z.

(** ** Example projects *)

(** Two overlapping zoom events. *)
Definition zoomA : ZoomEvent.t := ZoomEvent.Build "a" 2 3 50 50 2.
Definition zoomB : ZoomEvent.t := ZoomEvent.Build "b" 1 5 10 90 (3 # 2).

(** A zoom at the centre of the frame and one at a corner. *)
Definition exampleZoom : ZoomEvent.t := ZoomEvent.Build "z1" 2 3 50 50 2.
Definition cornerZoom : ZoomEvent.t := ZoomEvent.Build "z2" 2 3 0 100 2.

(** Recordings of 1920 by 1080 and of 1920 by 1081 pixels. *)
Definition recording1080 : VideoClip.t :=
  VideoClip.Build "1" 0 10 "Screen Recording" video None None None
                  (Some 1920) (Some 1080).


(** The clip [{start: 0, duration: 10}] followed by a title card. *)
Definition demoClip : VideoClip.t :=
  VideoClip.Build "1" 0 10 "Demo Project" video None None None None None.
Definition titleClip : VideoClip.t :=
  VideoClip.Build "2" 12 3 "Title Card" title (Some "Hi"%string) None None None None.

(** The first clip of the editor, 15 seconds long, after a move drag of
    2 pixels at 80 pixels per second, and the time of a scrub to pixel 324
    of the track; its two parts when it is split there. *)
Definition nudgedClip : VideoClip.t :=
  VideoClip.Build "1" (Double.binary64 (2 / 80)) 15 "Demo Project" video
                  None None None None None.
Definition pixel324 : Q := Double.binary64 (324 / 80).
Definition nudgedA : VideoClip.t :=
  VideoClip.withDuration nudgedClip
    (Double.sub pixel324 (VideoClip.startTime nudgedClip)).
Definition nudgedB : VideoClip.t :=
  VideoClip.Build "uuid" pixel324
    (Double.sub 15 (Double.sub pixel324 (VideoClip.startTime nudgedClip)))
    "Demo Project" video None None None None None.

(** The same numbers as the processor computes them, on the primitive
    floats of the kernel: the start [2 / 80], the time [324 / 80], the
    literal [0.1], the end of the clip and the end of its second part. *)
Module Hardware.
Import PrimFloat.
Definition start : float := (2 / 80)%float.
Definition time : float := (324 / 80)%float.
Definition tenth : float := (1 / 10)%float.
Definition firstDuration : float := (time - start)%float.
Definition secondDuration : float := (15 - firstDuration)%float.
Definition endOfClip : float := (start + 15)%float.
Definition endOfB : float := (time + secondDuration)%float.
End Hardware.

(** A recording of 1024 by 736 pixels. *)
Definition recording1024 : VideoClip.t :=
  VideoClip.Build "1" 0 10 "Screen Recording" video None None None
                  (Some 1024) (Some 736).

(** An idle editor: one zoom event, one clip, the timeline element at the
    origin, 80 pixels per second. *)
Definition exampleClip : VideoClip.t :=
  VideoClip.Build "1" 0 15 "Demo Project" video None None None None None.
Definition exampleIdle : App.State :=
  App.mkState 0 false false None None [exampleZoom] [exampleClip] None None None
              80 (Some (App.mkTimelineEl 0 0)).

(** Pointer-down on the body of the zoom (move) or on its handle (resize),
    and the move drag after the pointer went 80 pixels to the right. *)
Definition examplePressed : App.State :=
  App.pointerDownZoom 116 exampleZoom move exampleIdle.
Definition exampleDragging : App.State := App.handleMouseMove 196 examplePressed.
Definition exampleMoved : ZoomEvent.t :=
  ZoomEvent.withStartTime exampleZoom
    (Num.max 0 (2 + (App.relativeX (App.mkTimelineEl 0 0) 196 - 100) / 80)).

(** The last frame of an export: 14.99 s played, the previous frame at
    1000 ms, a recorder running, a timeline of 15 s. *)
Definition exampleLastFrame : App.State :=
  App.mkState 14.99 true true (Some 1000) (Some App.recording)
              [exampleZoom] [exampleClip] None None None 80
              (Some (App.mkTimelineEl 0 0)).

(** A window at (100, 50) of 800 by 600, and bounds of width zero. *)
Definition windowBounds : App.Bounds := App.mkBounds 100 50 800 600.
Definition flatBounds : App.Bounds := App.mkBounds 100 50 0 600.

(** * Properties *)

Lemma geb_iff a b : Num.geb a b = true <-> b <= a.
Proof. apply Qle_bool_iff. Qed.

Lemma leb_iff a b : Num.leb a b = true <-> a <= b.
Proof. apply Qle_bool_iff. Qed.

Lemma gtb_iff a b : Num.gtb a b = true <-> b < a.
Proof.
  unfold Num.gtb. rewrite negb_true_iff.
  split; intro H.
  - apply Qnot_le_lt. intro Hle. apply Qle_bool_iff in Hle. congruence.
  - destruct (Qle_bool a b) eqn:E; [|reflexivity].
    apply Qle_bool_iff in E. lra.
Qed.

Lemma ltb_iff a b : Num.ltb a b = true <-> a < b.
Proof. unfold Num.ltb. apply (gtb_iff b a). Qed.

Lemma zoomContains_iff t z :
  EditorCanvas.zoomContains t z = true <->
  ZoomEvent.startTime z <= t <= ZoomEvent.startTime z + ZoomEvent.duration z.
Proof.
  unfold EditorCanvas.zoomContains.
  rewrite andb_true_iff, geb_iff, leb_iff. tauto.
Qed.

(** [find] returns the first element that satisfies the predicate. *)
Lemma find_first {A} (p : A -> bool) (l : list A) (a : A) :
  find p l = Some a <->
  exists pre post, l = pre ++ a :: post /\ p a = true /\
                   forall b, In b pre -> p b = false.
Proof.
  induction l as [|h l IH]; simpl.
  - split; [discriminate|]. intros (pre & post & E & _).
    destruct pre; discriminate.
  - destruct (p h) eqn:Hh.
    + split.
      * intros [= <-]. exists [], l. simpl. repeat split; auto.
        intros b [].
      * intros (pre & post & E & Ha & Hpre).
        destruct pre as [|b pre]; simpl in E; injection E as -> ->; auto.
        rewrite (Hpre b) in Hh; [discriminate | left; reflexivity].
    + rewrite IH. split.
      * intros (pre & post & -> & Ha & Hpre).
        exists (h :: pre), post. simpl. repeat split; auto.
        intros b [<- | Hb]; auto.
      * intros (pre & post & E & Ha & Hpre).
        destruct pre as [|b pre]; simpl in E; injection E as -> ->.
        -- congruence.
        -- exists pre, post. repeat split; auto.
           intros c Hc. apply Hpre. right; exact Hc.
Qed.

Lemma find_none_iff {A} (p : A -> bool) (l : list A) :
  find p l = None <-> forall b, In b l -> p b = false.
Proof.
  split.
  - intros H b Hb. exact (find_none p l H b Hb).
  - induction l as [|h l IH]; simpl; intros H; [reflexivity|].
    rewrite (H h (or_introl eq_refl)). apply IH.
    intros b Hb. apply H. right; exact Hb.
Qed.



(** ** Camera targeting *)

(** Case analysis on the [max] and the [min] of a clamp, closed by linear
    arithmetic. *)
Ltac clamp_cases lo hi v :=
  unfold Num.max, Num.min;
  destruct (Q.max_spec lo (Qmin hi v)) as [[? ?] | [? ?]];
  destruct (Q.min_spec hi v) as [[? ?] | [? ?]];
  lra.

Section Clamp.

Variables lo hi v : Q.
Hypothesis lo_hi : lo <= hi.

Lemma clamp_between : lo <= Num.max lo (Num.min hi v) <= hi.
Proof. clamp_cases lo hi v. Qed.

Lemma clamp_inside : lo <= v <= hi -> Num.max lo (Num.min hi v) == v.
Proof. intros Hv. clamp_cases lo hi v. Qed.

Lemma clamp_below : v <= lo -> Num.max lo (Num.min hi v) == lo.
Proof. intros Hv. clamp_cases lo hi v. Qed.

Lemma clamp_above : hi <= v -> Num.max lo (Num.min hi v) == hi.
Proof. intros Hv. clamp_cases lo hi v. Qed.

End Clamp.

Lemma maxOffset_nonneg (dimension s : Q) :
  0 <= dimension -> 1 <= s -> 0 <= EditorCanvas.maxOffset dimension s.
Proof.
  intros Hd Hs. unfold EditorCanvas.maxOffset.
  apply Qmult_le_0_compat; [|lra].
  apply Qle_shift_div_l; lra.
Qed.

(** One axis: the target is the ideal translation clamped to
    [-limit, limit], where [limit = (dimension / 2) * (s - 1)]. *)
Lemma clampedTarget_axis (coord dimension s : Q) :
  0 <= dimension -> 1 <= s ->
  let limit := (dimension / 2) * (s - 1) in
  let ideal := - (((coord - 50) / 100) * dimension) * s in
  let t := EditorCanvas.clampedTarget coord dimension s in
  (ideal <= - limit -> t == - limit) /\
  (limit <= ideal -> t == limit) /\
  (- limit <= ideal <= limit -> t == ideal) /\
  Qabs t <= limit.
Proof.
  intros Hd Hs limit ideal t.
  assert (Hm : 0 <= limit) by (apply maxOffset_nonneg; assumption).
  assert (Hlh : - limit <= limit) by lra.
  subst t. unfold EditorCanvas.clampedTarget.
  change (EditorCanvas.maxOffset dimension s) with limit.
  change (EditorCanvas.idealCam coord dimension s) with ideal.
  repeat split.
  - apply clamp_below; assumption.
  - apply clamp_above; assumption.
  - apply clamp_inside; assumption.
  - apply Qabs_Qle_condition. apply clamp_between; assumption.
Qed.

(** C2. For an active zoom event with scale [s >= 1] and container
    dimensions [W], [H] (non-negative lengths), each axis of the camera
    target is the ideal translation [-((coord - 50) / 100 * dimension) * s]
    clamped to [-(dimension / 2) * (s - 1), (dimension / 2) * (s - 1)], so its
    absolute value is at most [(dimension / 2) * (s - 1)]; the target scale is
    the event's scale.  With no active zoom the target is translation
    [(0, 0)] and scale [contentScale].  The event coordinates need not be
    restricted to [0, 100] for this. *)
Theorem C2_camera_target (z : ZoomEvent.t) (W H contentScale : Q) :
  1 <= ZoomEvent.scale z -> 0 <= W -> 0 <= H ->
  let s := ZoomEvent.scale z in
  let limitX := (W / 2) * (s - 1) in
  let limitY := (H / 2) * (s - 1) in
  let idealX := - (((ZoomEvent.x z - 50) / 100) * W) * s in
  let idealY := - (((ZoomEvent.y z - 50) / 100) * H) * s in
  let tx := fst (EditorCanvas.targetCam (Some z) W H) in
  let ty := snd (EditorCanvas.targetCam (Some z) W H) in
  ((idealX <= - limitX -> tx == - limitX) /\
   (limitX <= idealX -> tx == limitX) /\
   (- limitX <= idealX <= limitX -> tx == idealX) /\
   Qabs tx <= limitX) /\
  ((idealY <= - limitY -> ty == - limitY) /\
   (limitY <= idealY -> ty == limitY) /\
   (- limitY <= idealY <= limitY -> ty == idealY) /\
   Qabs ty <= limitY) /\
  EditorCanvas.targetScale contentScale (Some z) = s /\
  EditorCanvas.targetCam None W H = (0, 0) /\
  EditorCanvas.targetScale contentScale None = contentScale.
Proof.
  intros Hs HW HH. cbn zeta.
  split; [exact (clampedTarget_axis (ZoomEvent.x z) W _ HW Hs)|].
  split; [exact (clampedTarget_axis (ZoomEvent.y z) H _ HH Hs)|].
  repeat split.
Qed.

(** A zoom at the centre needs no pan; a zoom at a corner is clamped. *)
Lemma C2_camera_target_witness :
  fst (EditorCanvas.targetCam (Some exampleZoom) 800 450) == 0 /\
  Qabs (fst (EditorCanvas.targetCam (Some cornerZoom) 800 450)) <= 400 /\
  snd (EditorCanvas.targetCam (Some cornerZoom) 800 450) == - (225).
Proof.
  assert (Hs : 1 <= 2) by (vm_compute; discriminate).
  assert (HW : 0 <= 800) by (vm_compute; discriminate).
  assert (HH : 0 <= 450) by (vm_compute; discriminate).
  destruct (C2_camera_target exampleZoom 800 450 1 Hs HW HH) as [[_ [_ [Hc _]]] _].
  destruct (C2_camera_target cornerZoom 800 450 1 Hs HW HH)
    as [[_ [_ [_ Hx]]] [[Hy _] _]].
  split; [|split].
  - rewrite Hc; [reflexivity | vm_compute; split; discriminate].
  - eapply Qle_trans; [exact Hx | vm_compute; discriminate].
  - rewrite Hy; [reflexivity | vm_compute; discriminate].
Defined.

(** The containers the layout produces meet the hypotheses of C2: their
    dimensions are not negative when [contentScale] is not negative and the
    clip dimensions in use are positive. *)
Lemma getContainerDimensions_nonneg (activeClip : option VideoClip.t)
      (showWindowFrame : bool) (contentScale : Q) (ratio : AspectRatio) :
  0 <= contentScale ->
  (forall c, activeClip = Some c ->
             0 < EditorCanvas.clipW c /\ 0 <= EditorCanvas.clipH c) ->
  0 <= EditorCanvas.width
         (EditorCanvas.getContainerDimensions activeClip showWindowFrame
            contentScale ratio) /\
  0 <= EditorCanvas.height
         (EditorCanvas.getContainerDimensions activeClip showWindowFrame
            contentScale ratio).
Proof.
  intros Hcs Hclip.
  destruct ratio; cbn; try (split; discriminate).
  destruct activeClip as [c|]; cbn; [|split; discriminate].
  split; [discriminate|].
  destruct (Hclip c eq_refl) as [HW HH].
  assert (Hs : 0 <= Num.min contentScale 1 <= 1).
  { unfold Num.min. destruct (Q.min_spec contentScale 1) as [[H1 H2] | [H1 H2]]; lra. }
  assert (Hh : 0 <= EditorCanvas.headerH showWindowFrame).
  { unfold EditorCanvas.headerH. destruct showWindowFrame; discriminate. }
  assert (HR : 0 <= (EditorCanvas.clipH c + EditorCanvas.headerH showWindowFrame)
                    / EditorCanvas.clipW c).
  { apply Qle_shift_div_l; [exact HW | lra]. }
  apply Qmult_le_0_compat; [discriminate|].
  assert (Hm := Qmult_le_0_compat _ _ (proj1 Hs) HR). lra.
Qed.

(** ** Layout *)

Lemma orElse_nonzero (v : option Q) (d : Q) : ~ d == 0 -> ~ Num.orElse v d == 0.
Proof.
  intros Hd. unfold Num.orElse. destruct v as [w|]; [|exact Hd].
  destruct (Qeq_bool w 0) eqn:E; [exact Hd|].
  apply Qeq_bool_neq. exact E.
Qed.



(** The dimensions the layout uses are the clip's own when they are
    present and non-zero. *)
Lemma clipW_given (c : VideoClip.t) (w : Q) :
  VideoClip.width c = Some w -> ~ w == 0 -> EditorCanvas.clipW c = w.
Proof.
  intros Hw Hz. unfold EditorCanvas.clipW, Num.orElse. rewrite Hw.
  destruct (Qeq_bool w 0) eqn:E; [|reflexivity].
  apply Qeq_bool_iff in E. contradiction.
Qed.

Lemma clipH_given (c : VideoClip.t) (h : Q) :
  VideoClip.height c = Some h -> ~ h == 0 -> EditorCanvas.clipH c = h.
Proof.
  intros Hh Hz. unfold EditorCanvas.clipH, Num.orElse. rewrite Hh.
  destruct (Qeq_bool h 0) eqn:E; [|reflexivity].
  apply Qeq_bool_iff in E. contradiction.
Qed.

(** C7. For the Auto policy with an active clip the container is 800 wide
    and [800 * (s * R' + (1 - s))] high, where the header height is 32
    with the window frame and 0 without, [R' = (contentHeight + header) /
    contentWidth], [contentWidth] and [contentHeight] being the width and
    the height of the clip (1920 and 1080 when the field is missing or
    zero), and [s = min(contentScale, 1)].  With [contentScale = 1] and no
    header the height is [800 * R] for the native ratio
    [R = contentHeight / contentWidth]; with [contentScale = 0] it is
    800. *)
Theorem C7_auto_container_size (c : VideoClip.t) (showWindowFrame : bool)
        (contentScale : Q) :
  let contentWidth :=
    match VideoClip.width c with
    | Some w => if Qeq_bool w 0 then 1920 else w
    | None => 1920
    end in
  let contentHeight :=
    match VideoClip.height c with
    | Some h => if Qeq_bool h 0 then 1080 else h
    | None => 1080
    end in
  let header := if showWindowFrame then 32 else 0 in
  let R' := (contentHeight + header) / contentWidth in
  let R := contentHeight / contentWidth in
  let s := Qmin contentScale 1 in
  let size k f := EditorCanvas.getContainerDimensions (Some c) f k Auto in
  EditorCanvas.width (size contentScale showWindowFrame) == 800 /\
  EditorCanvas.height (size contentScale showWindowFrame)
    == 800 * (s * R' + (1 - s)) /\
  EditorCanvas.height (size 1 false) == 800 * R /\
  EditorCanvas.height (size 0 showWindowFrame) == 800.
Proof.
  cbn zeta.
  unfold EditorCanvas.getContainerDimensions, EditorCanvas.headerH,
    EditorCanvas.clipW, EditorCanvas.clipH, Num.orElse.
  cbn [EditorCanvas.width EditorCanvas.height].
  set (contentWidth := match VideoClip.width c with
                       | Some w => if Qeq_bool w 0 then 1920 else w
                       | None => 1920
                       end).
  set (contentHeight := match VideoClip.height c with
                        | Some h => if Qeq_bool h 0 then 1080 else h
                        | None => 1080
                        end).
  split; [reflexivity|]. split; [reflexivity|]. split.
  - change (Num.min 1 1) with 1.
    setoid_replace ((contentHeight + 0) / contentWidth)
      with (contentHeight / contentWidth)
      by (apply Qdiv_comp; [ring | reflexivity]).
    ring.
  - change (Num.min 0 1) with 0. ring.
Qed.

(** A recording of 1024 by 736 pixels: with the window frame the
    container is 600 high at content scale 1 and 700 at content scale
    1/2; without it, 575 at content scale 1; and 800 at content scale 0. *)
Lemma C7_auto_container_size_witness :
  EditorCanvas.width
    (EditorCanvas.getContainerDimensions (Some recording1024) true 1 Auto) == 800 /\
  EditorCanvas.height
    (EditorCanvas.getContainerDimensions (Some recording1024) true 1 Auto) == 600 /\
  EditorCanvas.height
    (EditorCanvas.getContainerDimensions (Some recording1024) true (1 / 2) Auto)
  == 700 /\
  EditorCanvas.height
    (EditorCanvas.getContainerDimensions (Some recording1024) false 1 Auto) == 575 /\
  EditorCanvas.height
    (EditorCanvas.getContainerDimensions (Some recording1024) true 0 Auto) == 800.
Proof.
  destruct (C7_auto_container_size recording1024 true 1) as (Hw & Hfull & Hbare & Hzero).
  destruct (C7_auto_container_size recording1024 true (1 / 2)) as (_ & Hhalf & _ & _).
  split; [exact Hw|].
  split; [eapply Qeq_trans; [exact Hfull | vm_compute; reflexivity]|].
  split; [eapply Qeq_trans; [exact Hhalf | vm_compute; reflexivity]|].
  split; [eapply Qeq_trans; [exact Hbare | vm_compute; reflexivity]|].
  exact Hzero.
Defined.

Lemma gtb_false_iff a b : Num.gtb a b = false <-> a <= b.
Proof.
  unfold Num.gtb. rewrite negb_false_iff. apply Qle_bool_iff.
Qed.

Lemma ltb_false_iff a b : Num.ltb a b = false <-> b <= a.
Proof. unfold Num.ltb. apply (gtb_false_iff b a). Qed.




(** ** Split *)

Lemma strictlyInside_iff t c :
  App.strictlyInside t c = true <->
  VideoClip.startTime c < t /\
  t < Double.add (VideoClip.startTime c) (VideoClip.duration c).
Proof.
  unfold App.strictlyInside. rewrite andb_true_iff, gtb_iff, ltb_iff. tauto.
Qed.

Lemma strictlyInside_false_iff t c :
  App.strictlyInside t c = false <->
  ~ (VideoClip.startTime c < t /\
     t < Double.add (VideoClip.startTime c) (VideoClip.duration c)).
Proof.
  rewrite <- strictlyInside_iff.
  destruct (App.strictlyInside t c); split; congruence.
Qed.

Lemma findIndexFrom_first {A} (p : A -> bool) (pre : list A) (a : A) (post : list A) :
  (forall b, In b pre -> p b = false) -> p a = true ->
  forall i, App.findIndexFrom p (pre ++ a :: post) i = (i + Z.of_nat (List.length pre))%Z.
Proof.
  intros Hpre Ha. induction pre as [|b pre IH]; intro i.
  - simpl. rewrite Ha. lia.
  - cbn [app App.findIndexFrom]. rewrite (Hpre b (or_introl eq_refl)).
    rewrite IH; [|intros b' Hb'; apply Hpre; right; exact Hb'].
    cbn [List.length]. lia.
Qed.

(** Replacing one element at the position of [a]. *)
Lemma splice_replace_one {A} (pre : list A) (a : A) (post items : list A) :
  App.splice (pre ++ a :: post) (Z.of_nat (List.length pre)) 1 items
  = pre ++ items ++ post.
Proof.
  unfold App.splice. rewrite length_app. cbn [List.length].
  set (n := List.length pre). set (m := List.length post).
  replace (Z.of_nat n <? 0)%Z with false by (symmetry; apply Z.ltb_ge; lia).
  replace (Z.min (Z.of_nat n) (Z.of_nat (n + S m))) with (Z.of_nat n) by lia.
  replace (Z.min (Z.max 1 0) (Z.of_nat (n + S m) - Z.of_nat n)) with 1%Z by lia.
  rewrite Nat2Z.id.
  replace (Z.to_nat (Z.of_nat n + 1)) with (S n) by lia.
  subst n. rewrite firstn_app, firstn_all, Nat.sub_diag. cbn [firstn].
  rewrite app_nil_r. f_equal. f_equal.
  rewrite skipn_app.
  replace (S (List.length pre) - List.length pre)%nat with 1%nat by lia.
  rewrite skipn_all2 by lia. reflexivity.
Qed.

Lemma NoDup_ids_before (pre : list VideoClip.t) c post :
  NoDup (map VideoClip.id (pre ++ c :: post)) ->
  forall c', In c' pre -> String.eqb (VideoClip.id c') (VideoClip.id c) = false.
Proof.
  intros Hnd c' Hin. apply String.eqb_neq. intro Heq.
  rewrite map_app in Hnd. cbn [map] in Hnd.
  apply NoDup_remove_2 in Hnd. apply Hnd.
  apply in_or_app. left. rewrite <- Heq. apply in_map. exact Hin.
Qed.

Lemma find_app_first {A} (p : A -> bool) (pre : list A) (a : A) (post : list A) :
  (forall b, In b pre -> p b = false) -> p a = true ->
  find p (pre ++ a :: post) = Some a.
Proof.
  intros Hpre Ha. apply find_first. exists pre, post. auto.
Qed.

(** The rounding of [Double.binary64] is the one of the processor on the
    numbers of the example that follows: the primitive floats give the
    same start, time, threshold, durations and ends, and the end of the
    second part is after the end of the clip. *)
Lemma binary64_is_hardware :
  Double.agrees Hardware.start (VideoClip.startTime nudgedClip) = true /\
  Double.agrees Hardware.time pixel324 = true /\
  Double.agrees Hardware.tenth (Double.binary64 0.1) = true /\
  Double.agrees Hardware.firstDuration (VideoClip.duration nudgedA) = true /\
  Double.agrees Hardware.secondDuration (VideoClip.duration nudgedB) = true /\
  Double.agrees Hardware.endOfClip
    (Double.add (VideoClip.startTime nudgedClip) (VideoClip.duration nudgedClip))
  = true /\
  Double.agrees Hardware.endOfB
    (Double.add (VideoClip.startTime nudgedB) (VideoClip.duration nudgedB))
  = true /\
  PrimFloat.ltb Hardware.endOfClip Hardware.endOfB = true.
Proof. vm_compute. repeat split. Qed.

(** The claim of C3 as it is worded fails on the first clip of the editor
    moved by 2 pixels (start 0.025, duration 15) and split at pixel 324
    (time 4.05): the clip is replaced by the two parts, but the differences
    are rounded, and the second part ends at 15.025000000000002 while the
    clip ended at 15.025.  The combined interval is not the original one,
    whether the ends are added as doubles, as the code does, or exactly. *)
Lemma C3_split_clip_counterexample :
  App.splitClips "uuid" pixel324 [nudgedClip] = [nudgedA; nudgedB] /\
  Double.add (VideoClip.startTime nudgedClip) (VideoClip.duration nudgedClip)
  < Double.add (VideoClip.startTime nudgedB) (VideoClip.duration nudgedB) /\
  VideoClip.startTime nudgedClip + VideoClip.duration nudgedClip
  < VideoClip.startTime nudgedB + VideoClip.duration nudgedB /\
  ~ VideoClip.startTime nudgedB + VideoClip.duration nudgedB
    == VideoClip.startTime nudgedClip + VideoClip.duration nudgedClip.
Proof.
  split; [vm_compute; reflexivity|].
  split; [vm_compute; reflexivity|].
  split; [vm_compute; reflexivity|].
  intro H. vm_compute in H. discriminate H.
Qed.

(** C3 (amended). Splitting at time [t], the sums and differences being
    those of doubles.  If no clip strictly contains [t], the clip list is
    unchanged.  Otherwise let [c] be the containing clip (the first one in
    list order), [firstDuration] the difference [t - startTime] and
    [secondDuration] the difference [duration - firstDuration], each
    rounded to a double: if one of them is less than 0.1 the list is
    unchanged; if not, and clip ids are pairwise distinct, [c] is replaced
    in place by [A] (the fields of [c] with duration [firstDuration]) and
    [B] (the new id, start [t], duration [secondDuration], the other
    fields of [c]).  When the two differences are exact, the two durations
    add up to the duration of [c] and the two intervals are adjacent and
    cover the interval of [c]. *)
Theorem C3_split_clip (newId : string) (t : Q) (clips : list VideoClip.t) :
  ((forall c, In c clips ->
      ~ (VideoClip.startTime c < t /\
         t < Double.add (VideoClip.startTime c) (VideoClip.duration c))) ->
   App.splitClips newId t clips = clips) /\
  (forall pre c post,
     clips = pre ++ c :: post ->
     (forall c', In c' pre ->
        ~ (VideoClip.startTime c' < t /\
           t < Double.add (VideoClip.startTime c') (VideoClip.duration c'))) ->
     VideoClip.startTime c < t /\
     t < Double.add (VideoClip.startTime c) (VideoClip.duration c) ->
     let firstDuration := Double.sub t (VideoClip.startTime c) in
     let secondDuration := Double.sub (VideoClip.duration c) firstDuration in
     (firstDuration < Double.binary64 0.1 \/ secondDuration < Double.binary64 0.1 ->
      App.splitClips newId t clips = clips) /\
     (Double.binary64 0.1 <= firstDuration ->
      Double.binary64 0.1 <= secondDuration ->
      NoDup (map VideoClip.id clips) ->
      let A := VideoClip.withDuration c firstDuration in
      let B := VideoClip.Build newId t secondDuration
                 (VideoClip.name c) (VideoClip.type c) (VideoClip.text c)
                 (VideoClip.titleStyle c) (VideoClip.source c)
                 (VideoClip.width c) (VideoClip.height c) in
      App.splitClips newId t clips = pre ++ A :: B :: post /\
      VideoClip.id A = VideoClip.id c /\
      VideoClip.startTime A = VideoClip.startTime c /\
      (firstDuration == t - VideoClip.startTime c ->
       secondDuration == VideoClip.duration c - firstDuration ->
       VideoClip.duration A + VideoClip.duration B == VideoClip.duration c /\
       VideoClip.startTime A + VideoClip.duration A == VideoClip.startTime B /\
       VideoClip.startTime B + VideoClip.duration B
         == VideoClip.startTime c + VideoClip.duration c))).
Proof.
  split.
  - intros Hnone. unfold App.splitClips.
    replace (find (App.strictlyInside t) clips) with (@None VideoClip.t);
      [reflexivity|].
    symmetry. apply find_none_iff. intros c Hc.
    apply strictlyInside_false_iff. apply Hnone. exact Hc.
  - intros pre c post -> Hpre Hc. cbn zeta.
    set (firstDuration := Double.sub t (VideoClip.startTime c)).
    set (secondDuration := Double.sub (VideoClip.duration c) firstDuration).
    assert (Hfind : find (App.strictlyInside t) (pre ++ c :: post) = Some c).
    { apply find_app_first.
      - intros b Hb. apply strictlyInside_false_iff. apply Hpre. exact Hb.
      - apply strictlyInside_iff. exact Hc. }
    unfold App.splitClips. rewrite Hfind.
    fold firstDuration. fold secondDuration. split.
    + intros Hnear.
      destruct (Num.ltb firstDuration (Double.binary64 0.1)) eqn:E1;
        [reflexivity|].
      destruct (Num.ltb secondDuration (Double.binary64 0.1)) eqn:E2;
        [reflexivity|].
      apply ltb_false_iff in E1. apply ltb_false_iff in E2.
      exfalso. destruct Hnear as [Hnear | Hnear].
      * exact (Qlt_not_le _ _ Hnear E1).
      * exact (Qlt_not_le _ _ Hnear E2).
    + intros H1 H2 Hnd.
      replace (Num.ltb firstDuration (Double.binary64 0.1)) with false
        by (symmetry; apply ltb_false_iff; exact H1).
      replace (Num.ltb secondDuration (Double.binary64 0.1)) with false
        by (symmetry; apply ltb_false_iff; exact H2).
      cbn [orb]. split.
      * unfold App.findIndex. rewrite findIndexFrom_first.
        -- rewrite Z.add_0_l. rewrite splice_replace_one. reflexivity.
        -- apply (NoDup_ids_before pre c post Hnd).
        -- apply String.eqb_refl.
      * split; [reflexivity|]. split; [reflexivity|].
        intros E1 E2.
        cbn [VideoClip.duration VideoClip.startTime VideoClip.withDuration].
        rewrite E2, E1. repeat split; ring.
Qed.

(** Distinct ids are an invariant of splitting: with a new id that no clip
    carries, the ids stay pairwise distinct. *)
Lemma splitClips_NoDup (newId : string) (t : Q) (clips : list VideoClip.t) :
  NoDup (map VideoClip.id clips) ->
  ~ In newId (map VideoClip.id clips) ->
  NoDup (map VideoClip.id (App.splitClips newId t clips)).
Proof.
  intros Hnd Hfresh. unfold App.splitClips.
  destruct (find (App.strictlyInside t) clips) as [c|] eqn:Hfind; [|exact Hnd].
  destruct (Num.ltb _ _ || Num.ltb _ _); [exact Hnd|].
  apply find_first in Hfind. destruct Hfind as (pre & post & -> & _ & _).
  unfold App.findIndex. rewrite findIndexFrom_first;
    [|apply (NoDup_ids_before pre c post Hnd) | apply String.eqb_refl].
  rewrite Z.add_0_l, splice_replace_one.
  rewrite map_app in *. cbn [map app VideoClip.id VideoClip.withDuration] in *.
  apply NoDup_remove in Hnd. destruct Hnd as [Hnd Hc].
  assert (Hmid : NoDup (VideoClip.id c :: newId :: map VideoClip.id pre ++ map VideoClip.id post)).
  { constructor.
    - intros [Heq | Hin]; [|exact (Hc Hin)].
      apply Hfresh. apply in_or_app. right. left. symmetry. exact Heq.
    - constructor; [|exact Hnd].
      intro Hin. apply Hfresh. apply in_app_or in Hin.
      apply in_or_app. destruct Hin as [Hin | Hin]; [left | right; right]; exact Hin. }
  eapply Permutation.Permutation_NoDup; [|exact Hmid].
  etransitivity; [|apply Permutation.Permutation_middle].
  constructor.
  apply (Permutation.Permutation_middle (map VideoClip.id pre) (map VideoClip.id post) newId).
Qed.

(** The clip [{start: 0, duration: 10}] split at [t = 4], where nothing
    is rounded, and at [t = 11], which no clip contains. *)
Lemma C3_split_clip_witness :
  (App.splitClips "uuid" 4 [demoClip; titleClip]
   = [VideoClip.withDuration demoClip (Double.sub 4 0);
      VideoClip.Build "uuid" 4 (Double.sub 10 (Double.sub 4 0)) "Demo Project" video
                      None None None None None;
      titleClip] /\
   Double.sub 4 0 == 4 /\ Double.sub 10 (Double.sub 4 0) == 6 /\
   Double.sub 4 0 + Double.sub 10 (Double.sub 4 0) == 10) /\
  App.splitClips "uuid" 11 [demoClip; titleClip] = [demoClip; titleClip].
Proof.
  destruct (C3_split_clip "uuid" 4 [demoClip; titleClip]) as [_ Hsplit].
  destruct (C3_split_clip "uuid" 11 [demoClip; titleClip]) as [Hnone _].
  split.
  - assert (Hin : VideoClip.startTime demoClip < 4 /\
                  4 < Double.add (VideoClip.startTime demoClip)
                                 (VideoClip.duration demoClip))
      by (split; vm_compute; reflexivity).
    assert (Hpre : forall c' : VideoClip.t, In c' [] ->
              ~ (VideoClip.startTime c' < 4 /\
                 4 < Double.add (VideoClip.startTime c') (VideoClip.duration c')))
      by (intros c' []).
    assert (Hnd : NoDup (map VideoClip.id [demoClip; titleClip]))
      by (repeat constructor; simpl; intuition discriminate).
    assert (H1 : Double.binary64 0.1 <= Double.sub 4 (VideoClip.startTime demoClip))
      by (vm_compute; discriminate).
    assert (H2 : Double.binary64 0.1
                 <= Double.sub (VideoClip.duration demoClip)
                               (Double.sub 4 (VideoClip.startTime demoClip)))
      by (vm_compute; discriminate).
    destruct (proj2 (Hsplit [] demoClip [titleClip] eq_refl Hpre Hin) H1 H2 Hnd)
      as (Heq & _ & _ & Hexact).
    split; [exact Heq|].
    split; [vm_compute; reflexivity|]. split; [vm_compute; reflexivity|].
    refine (proj1 (Hexact _ _)); vm_compute; reflexivity.
  - apply Hnone. intros c' [<- | [<- | []]]; intros [H1 H2];
      vm_compute in H1, H2; discriminate.
Defined.

(** ** Timeline interaction *)

Lemma dragKind_eqb_refl k : App.dragKind_eqb k k = true.
Proof. destruct k; reflexivity. Qed.

Lemma dragMode_eqb_refl m : App.dragMode_eqb m m = true.
Proof. destruct m; reflexivity. Qed.

Lemma toggleDrag_same kind id mode contentX start dur startX initialStart initialDuration :
  App.toggleDrag kind id mode contentX start dur
    (Some (DragItem kind id mode startX initialStart initialDuration)) = None.
Proof.
  unfold App.toggleDrag.
  rewrite dragKind_eqb_refl, String.eqb_refl, dragMode_eqb_refl. reflexivity.
Qed.


(** The claim of C4 as it is worded fails: after pressing the zoom, moving
    80 pixels and pressing the same zoom again in the same mode, the drag
    state is null, and the zoom starts at 3 where it started at 2 before
    the drag began: the delta of the move is retained. *)
Lemma C4_toggle_counterexample :
  App.dragState examplePressed = Some (DragItem zoom "z1" move 100 2 3) /\
  App.zooms exampleDragging = [exampleMoved] /\
  App.dragState (App.pointerDownZoom 196 exampleMoved move exampleDragging) = None /\
  App.zooms (App.pointerDownZoom 196 exampleMoved move exampleDragging)
  = [exampleMoved] /\
  ZoomEvent.startTime exampleMoved == 3 /\
  ~ ZoomEvent.startTime exampleMoved == ZoomEvent.startTime exampleZoom.
Proof.
  split; [reflexivity|]. split; [reflexivity|].
  split; [reflexivity|]. split; [reflexivity|].
  split; [reflexivity|]. intro H. vm_compute in H. discriminate H.
Qed.

(** C4 (amended). While a clip or a zoom is dragged, a pointer-down on the
    same target id in the same mode sets the drag state to null and
    changes neither the zoom events, the clips nor the current time: the
    items keep the start and duration given by the last pointer-move of
    the drag, and later pointer-moves apply no further delta. *)
Theorem C4_toggle_ends_drag (s : App.State) (el : App.TimelineEl)
        (kind : DragKind) (id : string) (mode : DragMode)
        (startX initialStart initialDuration clientX start dur : Q) :
  App.dragState s = Some (DragItem kind id mode startX initialStart initialDuration) ->
  App.timelineRef s = Some el ->
  let s' := match kind with
            | zoom => App.onZoomInteraction clientX id mode start dur s
            | clip => App.onClipInteraction clientX id mode start dur s
            end in
  App.dragState s' = None /\
  App.zooms s' = App.zooms s /\
  App.clips s' = App.clips s /\
  App.currentTime s' = App.currentTime s /\
  forall x, App.handleMouseMove x s' = s'.
Proof.
  intros Hd Hel.
  destruct kind; cbn zeta;
    unfold App.onZoomInteraction, App.onClipInteraction; rewrite Hel;
    cbn [App.dragState App.setSelectedClipId App.setSelectedZoomId
         App.setDragState App.zooms App.clips App.currentTime];
    rewrite Hd, toggleDrag_same; repeat split; intro x; reflexivity.
Qed.

Lemma C4_toggle_ends_drag_witness :
  App.dragState (App.pointerDownZoom 196 exampleMoved move exampleDragging) = None /\
  App.zooms (App.pointerDownZoom 196 exampleMoved move exampleDragging)
  = App.zooms exampleDragging.
Proof.
  destruct (C4_toggle_ends_drag exampleDragging (App.mkTimelineEl 0 0)
              zoom "z1" move 100 2 3 196
              (ZoomEvent.startTime exampleMoved) (ZoomEvent.duration exampleMoved)
              eq_refl eq_refl) as (Hd & Hz & _).
  split; [exact Hd | exact Hz].
Defined.

(** The claim of C5 as it is worded fails: releasing the pointer while
    the zoom is dragged leaves the drag state set. *)
Lemma C5_release_counterexample :
  App.dragState exampleDragging = Some (DragItem zoom "z1" move 100 2 3) /\
  App.dragState (App.handleMouseUp exampleDragging) <> None.
Proof.
  split; [reflexivity|]. intro H. vm_compute in H. discriminate H.
Qed.

(** C5 (amended). Releasing the pointer button while the playhead is
    dragged sets the drag state to null and changes nothing else.
    Releasing it while a clip or a zoom is dragged changes nothing: the
    drag state stays set and the timeline keeps the last applied
    mutation.  Such a drag ends with the next pointer-down on the same
    target and mode or on the track background, which set the drag
    state to null without touching the items. *)
Theorem C5_release (s : App.State) :
  (App.dragState s = Some DragPlayhead ->
     App.handleMouseUp s = App.setDragState None s /\
     App.dragState (App.handleMouseUp s) = None) /\
  (forall kind id mode startX initialStart initialDuration,
     App.dragState s = Some (DragItem kind id mode startX initialStart initialDuration) ->
     App.handleMouseUp s = s /\
     (forall el clientX,
        App.timelineRef s = Some el ->
        let s' := App.handleScrubStart clientX s in
        App.dragState s' = None /\
        App.zooms s' = App.zooms s /\
        App.clips s' = App.clips s /\
        App.currentTime s' = App.currentTime s)).
Proof.
  split.
  - intros H. unfold App.handleMouseUp. rewrite H. split; reflexivity.
  - intros kind id mode startX initialStart initialDuration H. split.
    + unfold App.handleMouseUp. rewrite H. reflexivity.
    + intros el clientX Hel. cbn zeta. unfold App.handleScrubStart.
      rewrite Hel, H. repeat split.
Qed.

Lemma C5_release_witness :
  App.dragState (App.handleMouseUp (App.handleScrubStart 116 exampleIdle)) = None /\
  App.handleMouseUp exampleDragging = exampleDragging.
Proof.
  split.
  - apply (proj1 (C5_release (App.handleScrubStart 116 exampleIdle))).
    reflexivity.
  - apply (proj2 (C5_release exampleDragging) zoom "z1"%string move 100 2 3).
    reflexivity.
Defined.



Lemma Qmax_lower_l (a b : Q) : a <= Qmax a b.
Proof. destruct (Q.max_spec a b) as [[H1 H2] | [H1 H2]]; lra. Qed.

Lemma Qmax_eq_r (a b : Q) : a <= b -> Qmax a b == b.
Proof. intro H. destruct (Q.max_spec a b) as [[H1 H2] | [H1 H2]]; lra. Qed.

Lemma Qmax_eq_l (a b : Q) : b <= a -> Qmax a b == a.
Proof. intro H. destruct (Q.max_spec a b) as [[H1 H2] | [H1 H2]]; lra. Qed.



(** ** Playback clock *)

Lemma timelineDuration_min clips zooms :
  App.DEFAULT_DURATION <= App.timelineDuration clips zooms.
Proof.
  unfold App.timelineDuration, Num.max.
  set (clipEnd := fold_left _ clips 0). set (zoomEnd := fold_left _ zooms 0).
  assert (H : App.DEFAULT_DURATION <= Qmax (Qmax App.DEFAULT_DURATION clipEnd) zoomEnd).
  { eapply Qle_trans; [|apply Qmax_lower_l]. apply Qmax_lower_l. }
  destruct (Num.gtb (Qmax (Qmax App.DEFAULT_DURATION clipEnd) zoomEnd) 0);
    [exact H | apply Qle_refl].
Qed.

Lemma duration_pos (s : App.State) : 0 < App.duration s.
Proof.
  unfold App.duration.
  eapply Qlt_le_trans; [|apply timelineDuration_min]. reflexivity.
Qed.

Lemma geb_false_iff a b : Num.geb a b = false <-> a < b.
Proof.
  unfold Num.geb. split; intro H.
  - apply Qnot_le_lt. intro Hle. apply Qle_bool_iff in Hle. congruence.
  - destruct (Qle_bool b a) eqn:E; [|reflexivity].
    apply Qle_bool_iff in E. lra.
Qed.












(** ** Pointer samples *)

Lemma clamp01 (v : Q) : 0 <= Num.max 0 (Num.min 1 v) <= 1.
Proof. apply clamp_between. lra. Qed.

Lemma div_none_iff (a b : Q) : Num.div a b = None <-> b == 0.
Proof.
  unfold Num.div. destruct (Qeq_bool b 0) eqn:E.
  - apply Qeq_bool_iff in E. split; auto.
  - apply Qeq_bool_neq in E. split; [discriminate | contradiction].
Qed.

Lemma div_some (a b : Q) : ~ b == 0 -> Num.div a b = Some (a / b).
Proof.
  intro H. unfold Num.div. destruct (Qeq_bool b 0) eqn:E; [|reflexivity].
  apply Qeq_bool_iff in E. contradiction.
Qed.

Lemma onMousePosition_ok bounds captureStart now data acc :
  captureStart <= now ->
  Forall sampleOk acc ->
  Forall sampleOk (App.onMousePosition bounds captureStart now data acc).
Proof.
  intros Hnow Hacc. unfold App.onMousePosition.
  destruct bounds as [b|]; [|exact Hacc].
  destruct (Num.div (App.m_x data - App.b_x b) (App.b_width b)) as [nx|];
    [|exact Hacc].
  destruct (Num.div (App.m_y data - App.b_y b) (App.b_height b)) as [ny|];
    [|exact Hacc].
  apply Forall_app. split; [exact Hacc|].
  constructor; [|constructor].
  unfold sampleOk. cbn [App.x App.y App.time].
  split; [apply clamp01|]. split; [apply clamp01|].
  apply Qle_shift_div_l; [reflexivity | lra].
Qed.

Lemma collect_ok bounds captureStart (events : list (Q * App.MousePosition)) :
  (forall e, In e events -> captureStart <= fst e) ->
  forall acc, Forall sampleOk acc ->
    Forall sampleOk
      (fold_left (fun acc e => App.onMousePosition bounds captureStart (fst e) (snd e) acc)
                 events acc).
Proof.
  induction events as [|e events IH]; intros Hev acc Hacc; [exact Hacc|].
  cbn [fold_left]. apply IH.
  - intros e' He'. apply Hev. right; exact He'.
  - apply onMousePosition_ok; [apply Hev; left; reflexivity | exact Hacc].
Qed.

(** C10. Every pointer sample stored during an export capture has [x] and
    [y] in [0, 1] and a non-negative time, the clock being monotonic
    ([performance.now()] never earlier than at capture start).  A reported
    position is stored as the clamped quotients [(x - bounds.x) /
    bounds.width] and [(y - bounds.y) / bounds.height] with the time
    [(now - captureStart) / 1000]; when a quotient is not finite (the
    width or the height of the bounds is zero) nothing is stored. *)
Theorem C10_pointer_samples (bounds : option App.Bounds) (captureStart : Q) :
  (forall events,
     (forall e, In e events -> captureStart <= fst e) ->
     Forall (fun smp =>
               (0 <= App.x smp <= 1) /\ (0 <= App.y smp <= 1) /\ 0 <= App.time smp)
            (App.collect bounds captureStart events)) /\
  (forall b now data acc,
     bounds = Some b ->
     App.b_width b == 0 \/ App.b_height b == 0 ->
     App.onMousePosition bounds captureStart now data acc = acc) /\
  (forall b now data acc,
     bounds = Some b ->
     ~ App.b_width b == 0 -> ~ App.b_height b == 0 ->
     App.onMousePosition bounds captureStart now data acc
     = acc ++ [App.mkSample
                 (Qmax 0 (Qmin 1 ((App.m_x data - App.b_x b) / App.b_width b)))
                 (Qmax 0 (Qmin 1 ((App.m_y data - App.b_y b) / App.b_height b)))
                 ((now - captureStart) / 1000)]).
Proof.
  split; [|split].
  - intros events Hev. unfold App.collect.
    apply (collect_ok bounds captureStart events Hev []). constructor.
  - intros b now data acc -> Hzero. unfold App.onMousePosition.
    destruct Hzero as [Hw | Hh].
    + rewrite (proj2 (div_none_iff (App.m_x data - App.b_x b) _) Hw). reflexivity.
    + rewrite (proj2 (div_none_iff (App.m_y data - App.b_y b) _) Hh).
      destruct (Num.div _ _); reflexivity.
  - intros b now data acc -> Hw Hh. unfold App.onMousePosition.
    rewrite (div_some _ _ Hw), (div_some _ _ Hh). reflexivity.
Qed.

(** A window at (100, 50) of 800 by 600: a position inside the window, one
    left of it, and a report against degenerate bounds. *)
Lemma C10_pointer_samples_witness :
  Forall sampleOk
    (App.collect (Some windowBounds) 5000
       [(5016, App.mkMousePosition 500 350); (5032, App.mkMousePosition 20 700)]) /\
  App.onMousePosition (Some flatBounds) 5000 5016 (App.mkMousePosition 500 350) [] = [].
Proof.
  split.
  - apply (proj1 (C10_pointer_samples (Some windowBounds) 5000)).
    intros e [<- | [<- | []]]; vm_compute; discriminate.
  - apply (proj1 (proj2 (C10_pointer_samples (Some flatBounds) 5000)) flatBounds).
    + reflexivity.
    + left. reflexivity.
Defined.

(** * Further properties of the timeline code *)

(** ** Timeline duration and content width *)

Section FoldMax.

Context {A : Type} (f : A -> Q).

Lemma fold_max_spec (l : list A) :
  forall init,
    let m := fold_left (fun max a => Num.max max (f a)) l init in
    init <= m /\
    (forall a, In a l -> f a <= m) /\
    (m == init \/ exists a, In a l /\ m == f a).
Proof.
  induction l as [|a l IH]; intro init; cbn [fold_left].
  - split; [apply Qle_refl|]. split; [intros a []|]. left. reflexivity.
  - destruct (IH (Num.max init (f a))) as (Hinit & Hall & Hwhich).
    unfold Num.max in *.
    destruct (Q.max_spec init (f a)) as [[Hlt Heq] | [Hle Heq]].
    + split; [lra|]. split.
      * intros b [<- | Hb]; [lra | apply Hall; exact Hb].
      * right. destruct Hwhich as [Hm | (b & Hb & Hm)].
        -- exists a. split; [left; reflexivity | lra].
        -- exists b. split; [right; exact Hb | exact Hm].
    + split; [lra|]. split.
      * intros b [<- | Hb]; [lra | apply Hall; exact Hb].
      * destruct Hwhich as [Hm | (b & Hb & Hm)].
        -- left. lra.
        -- right. exists b. split; [right; exact Hb | exact Hm].
Qed.

End FoldMax.

(** The derived duration is the maximum of 15 and the ends of the items. *)
Lemma timelineDuration_spec clips zooms :
  let D := App.timelineDuration clips zooms in
  15 <= D /\
  (forall c, In c clips -> clipEnd c <= D) /\
  (forall z, In z zooms -> zoomEnd z <= D) /\
  (D == 15 \/ (exists c, In c clips /\ D == clipEnd c)
           \/ (exists z, In z zooms /\ D == zoomEnd z)).
Proof.
  cbn zeta. pose proof (timelineDuration_min clips zooms) as Hmin.
  change App.DEFAULT_DURATION with 15 in Hmin.
  unfold App.timelineDuration in *.
  destruct (fold_max_spec clipEnd clips 0) as (Hc0 & Hcall & Hcwhich).
  destruct (fold_max_spec zoomEnd zooms 0) as (Hz0 & Hzall & Hzwhich).
  unfold clipEnd, zoomEnd in *. cbn zeta in *.
  set (ce := fold_left _ clips 0) in *. set (ze := fold_left _ zooms 0) in *.
  unfold Num.max in *. change App.DEFAULT_DURATION with 15 in *.
  assert (Hnext : 15 <= Qmax (Qmax 15 ce) ze /\ ce <= Qmax (Qmax 15 ce) ze /\
                  ze <= Qmax (Qmax 15 ce) ze /\
                  (Qmax (Qmax 15 ce) ze == 15 \/ Qmax (Qmax 15 ce) ze == ce \/
                   Qmax (Qmax 15 ce) ze == ze)).
  { destruct (Q.max_spec (Qmax 15 ce) ze) as [[? ?] | [? ?]];
      destruct (Q.max_spec 15 ce) as [[? ?] | [? ?]];
      (split; [lra|]); (split; [lra|]); (split; [lra|]);
      first [left; lra | right; left; lra | right; right; lra]. }
  destruct Hnext as (H15 & Hce & Hze & Hwhich).
  replace (Num.gtb (Qmax (Qmax 15 ce) ze) 0) with true in *
    by (symmetry; apply gtb_iff; lra).
  split; [exact H15|]. split; [|split].
  - intros c Hc. specialize (Hcall c Hc). lra.
  - intros z Hz. specialize (Hzall z Hz). lra.
  - destruct Hwhich as [H | [H | H]].
    + left. exact H.
    + destruct Hcwhich as [H0 | (c & Hc & Hm)]; [lra|].
      right. left. exists c. split; [exact Hc | lra].
    + destruct Hzwhich as [H0 | (z & Hz & Hm)]; [lra|].
      right. right. exists z. split; [exact Hz | lra].
Qed.

(** X1. The derived timeline duration is at least 15 seconds, no clip
    and no zoom event ends after it, and it is exactly 15 or the end of
    one of them. *)
Theorem X1_timelineDuration_is_max (clips : list VideoClip.t) (zooms : list ZoomEvent.t) :
  let D := App.timelineDuration clips zooms in
  15 <= D /\
  (forall c, In c clips -> VideoClip.startTime c + VideoClip.duration c <= D) /\
  (forall z, In z zooms -> ZoomEvent.startTime z + ZoomEvent.duration z <= D) /\
  (D == 15 \/
   (exists c, In c clips /\ D == VideoClip.startTime c + VideoClip.duration c) \/
   (exists z, In z zooms /\ D == ZoomEvent.startTime z + ZoomEvent.duration z)).
Proof. exact (timelineDuration_spec clips zooms). Qed.

(** X2. The content of the timeline is at least 600 pixels wide and wide
    enough for the whole duration: the playhead, drawn at
    [16 + currentTime * scale], stays 16 pixels inside it, and so does the
    right edge of every item that ends within the duration and is drawn
    as wide as its duration ([duration * scale] at least 2); an item
    drawn at the minimum width of 2 pixels stays 14 pixels inside it. *)
Theorem X2_content_width_fits (timelineDuration scale : Q) :
  0 <= scale ->
  let W := TimelineView.timelineContentWidth timelineDuration scale in
  600 <= W /\
  (forall t, t <= timelineDuration -> TimelineView.playheadLeft t scale + 16 <= W) /\
  (forall start dur,
     0 <= dur -> start + dur <= timelineDuration ->
     let right :=
       TimelineView.itemLeft start scale + TimelineView.itemWidth dur scale in
     right + 14 <= W /\
     (2 <= dur * scale -> right + 16 <= W) /\
     (dur * scale <= 2 -> right == 18 + start * scale)).
Proof.
  intros Hscale. cbn zeta.
  unfold TimelineView.timelineContentWidth, TimelineView.playheadLeft,
    TimelineView.itemLeft, TimelineView.itemWidth, Num.max.
  pose proof (Qle_ceiling (timelineDuration * scale)) as Hceil.
  set (c := inject_Z (Qceiling (timelineDuration * scale))) in *.
  assert (Hmax : 600 <= Qmax 600 (c + 32) /\ c + 32 <= Qmax 600 (c + 32)).
  { destruct (Q.max_spec 600 (c + 32)) as [[? ?] | [? ?]]; lra. }
  destruct Hmax as [H600 Hc]. split; [exact H600|]. split.
  - intros t Ht.
    assert (t * scale <= timelineDuration * scale)
      by (apply Qmult_le_compat_r; assumption).
    lra.
  - intros start dur Hdur Hend.
    assert (Hfull : (start + dur) * scale <= timelineDuration * scale)
      by (apply Qmult_le_compat_r; assumption).
    assert (Hdist : (start + dur) * scale == start * scale + dur * scale) by ring.
    assert (Hwidth : 0 <= dur * scale) by (apply Qmult_le_0_compat; assumption).
    destruct (Q.max_spec 2 (dur * scale)) as [[Hlt ->] | [Hle ->]].
    + repeat split; intros; lra.
    + repeat split; intros; lra.
Qed.

(** At 80 pixels per second and 15 seconds: the playhead at the end, a
    zoom over the last 5 seconds, and a zoom of 1/160 second, drawn 2
    pixels wide, that ends with the timeline. *)
Lemma X2_content_width_fits_witness :
  TimelineView.playheadLeft 15 80 + 16
  <= TimelineView.timelineContentWidth 15 80 /\
  TimelineView.itemLeft 10 80 + TimelineView.itemWidth 5 80 + 16
  <= TimelineView.timelineContentWidth 15 80 /\
  TimelineView.itemLeft (15 - 1 / 160) 80 + TimelineView.itemWidth (1 / 160) 80 + 14
  <= TimelineView.timelineContentWidth 15 80 /\
  TimelineView.itemLeft (15 - 1 / 160) 80 + TimelineView.itemWidth (1 / 160) 80
  == 18 + (15 - 1 / 160) * 80.
Proof.
  assert (Hscale : 0 <= 80) by (vm_compute; discriminate).
  destruct (X2_content_width_fits 15 80 Hscale) as (_ & Hplay & Hitem).
  split; [apply (Hplay 15); apply Qle_refl|].
  split; [apply (Hitem 10 5); vm_compute; discriminate|].
  split; [apply (Hitem (15 - 1 / 160) (1 / 160)); vm_compute; discriminate|].
  apply (Hitem (15 - 1 / 160) (1 / 160)); vm_compute; discriminate.
Defined.

(** ** Scrubbing and dragging in pixels *)

Lemma clamped_time (trackWidth relX scale : Q) :
  0 < scale -> 0 <= trackWidth ->
  0 <= Num.max 0 (Num.min trackWidth relX) / scale <= trackWidth / scale.
Proof.
  intros Hs Hw.
  destruct (clamp_between 0 trackWidth relX Hw) as [H0 H1].
  split.
  - apply Qle_shift_div_l; [exact Hs | lra].
  - apply Qmult_le_compat_r; [exact H1|].
    apply Qlt_le_weak. apply Qinv_lt_0_compat. exact Hs.
Qed.

Lemma scrub_time_in_range (s : App.State) (relX : Q) :
  0 < App.timelineScale s ->
  0 <= Num.max 0 (Num.min (App.duration s * App.timelineScale s) relX)
       / App.timelineScale s
  <= App.duration s.
Proof.
  intros Hs.
  pose proof (duration_pos s) as HD.
  assert (Hw : 0 <= App.duration s * App.timelineScale s).
  { apply Qmult_le_0_compat; lra. }
  destruct (clamped_time _ relX _ Hs Hw) as [H0 H1].
  split; [exact H0|].
  eapply Qle_trans; [exact H1|].
  assert (E : App.duration s * App.timelineScale s / App.timelineScale s
              == App.duration s) by (field; lra).
  rewrite E. apply Qle_refl.
Qed.

(** X3. A pointer-down on the track background or the playhead while no
    item is dragged puts the current time inside [0, timelineDuration]
    wherever the pointer is, starts the playhead drag and clears both
    selections, leaving the items alone; the pointer-moves of a playhead
    drag keep the current time inside [0, timelineDuration] and change
    nothing else. *)
Theorem X3_scrub_stays_on_timeline (s : App.State) (el : App.TimelineEl)
        (clientX : Q) :
  App.timelineRef s = Some el ->
  0 < App.timelineScale s ->
  (App.dragState s = None \/ App.dragState s = Some DragPlayhead ->
   let s' := App.handleScrubStart clientX s in
   0 <= App.currentTime s' <= App.duration s' /\
   App.dragState s' = Some DragPlayhead /\
   App.selectedZoomId s' = None /\ App.selectedClipId s' = None /\
   App.zooms s' = App.zooms s /\ App.clips s' = App.clips s) /\
  (App.dragState s = Some DragPlayhead ->
   let s' := App.handleMouseMove clientX s in
   0 <= App.currentTime s' <= App.duration s' /\
   s' = App.setCurrentTime (App.currentTime s') s).
Proof.
  intros Hel Hscale. split.
  - intros Hdrag. cbn zeta. unfold App.handleScrubStart. rewrite Hel.
    assert (Hgo : forall d, d = None \/ d = Some DragPlayhead ->
              match d with
              | Some (DragItem _ _ _ _ _ _) => False
              | _ => True
              end).
    { intros d [-> | ->]; exact I. }
    specialize (Hgo _ Hdrag).
    destruct (App.dragState s) as [[| ]|]; [contradiction | |];
      cbn [App.currentTime App.dragState App.selectedZoomId App.selectedClipId
           App.zooms App.clips App.setDragState App.setSelectedClipId
           App.setSelectedZoomId App.setCurrentTime];
      (split; [apply (scrub_time_in_range s _ Hscale)|]); repeat split.
  - intros Hdrag. cbn zeta. unfold App.handleMouseMove. rewrite Hdrag, Hel.
    cbn [App.currentTime App.setCurrentTime].
    split; [apply (scrub_time_in_range s _ Hscale) | reflexivity].
Qed.

Lemma X3_scrub_stays_on_timeline_witness :
  0 <= App.currentTime (App.handleScrubStart 5000 exampleIdle)
    <= App.duration (App.handleScrubStart 5000 exampleIdle).
Proof.
  assert (Hscale : 0 < App.timelineScale exampleIdle) by reflexivity.
  apply (proj1 (X3_scrub_stays_on_timeline exampleIdle (App.mkTimelineEl 0 0) 5000
                  eq_refl Hscale)).
  left. reflexivity.
Defined.

(** X4. Scrubbing puts the playhead under the pointer: when the pointer
    is over the track (between pixel 0 and [timelineDuration * scale] of
    it), the playhead is drawn at the pointer's position in the content;
    a pointer left of the track puts it at pixel 16, the start of the
    track. *)
Theorem X4_playhead_under_pointer (s : App.State) (el : App.TimelineEl)
        (clientX : Q) :
  App.timelineRef s = Some el ->
  0 < App.timelineScale s ->
  App.dragState s = None \/ App.dragState s = Some DragPlayhead ->
  let s' := App.handleScrubStart clientX s in
  (0 <= App.relativeX el clientX <= App.duration s * App.timelineScale s ->
   TimelineView.playheadLeft (App.currentTime s') (App.timelineScale s')
   == TimelineView.contentX el clientX) /\
  (App.relativeX el clientX <= 0 ->
   TimelineView.playheadLeft (App.currentTime s') (App.timelineScale s') == 16).
Proof.
  intros Hel Hscale Hdrag. cbn zeta.
  assert (Hs' : App.currentTime (App.handleScrubStart clientX s)
                = Num.max 0 (Num.min (App.duration s * App.timelineScale s)
                                     (App.relativeX el clientX))
                  / App.timelineScale s
                /\ App.timelineScale (App.handleScrubStart clientX s)
                   = App.timelineScale s).
  { unfold App.handleScrubStart. rewrite Hel.
    destruct Hdrag as [-> | ->]; split; reflexivity. }
  destruct Hs' as [-> ->].
  pose proof (duration_pos s) as HD.
  assert (Hw : 0 <= App.duration s * App.timelineScale s).
  { apply Qmult_le_0_compat; lra. }
  unfold TimelineView.playheadLeft, TimelineView.contentX.
  split; intros Hrel.
  - rewrite (clamp_inside 0 _ (App.relativeX el clientX) Hrel).
    unfold App.relativeX. field. lra.
  - rewrite (clamp_below 0 _ (App.relativeX el clientX) Hw Hrel).
    field. lra.
Qed.

Lemma X4_playhead_under_pointer_witness :
  TimelineView.playheadLeft (App.currentTime (App.handleScrubStart 416 exampleIdle))
                            (App.timelineScale (App.handleScrubStart 416 exampleIdle))
  == TimelineView.contentX (App.mkTimelineEl 0 0) 416.
Proof.
  assert (Hscale : 0 < App.timelineScale exampleIdle) by reflexivity.
  apply (proj1 (X4_playhead_under_pointer exampleIdle (App.mkTimelineEl 0 0) 416
                  eq_refl Hscale (or_introl eq_refl))).
  vm_compute. split; discriminate.
Defined.

Lemma dragZoom_id id mode a b dt z :
  ZoomEvent.id (App.dragZoom id mode a b dt z) = ZoomEvent.id z.
Proof.
  unfold App.dragZoom.
  destruct (String.eqb (ZoomEvent.id z) id); cbn [negb]; [destruct mode|];
    reflexivity.
Qed.

Lemma dragClip_id id mode a b dt c :
  VideoClip.id (App.dragClip id mode a b dt c) = VideoClip.id c.
Proof.
  unfold App.dragClip.
  destruct (String.eqb (VideoClip.id c) id); cbn [negb]; [destruct mode|];
    reflexivity.
Qed.

(** The items that carry the dragged id hold the new start or the new
    duration after the pointer-move. *)
Lemma dragged_zoom id mode a b dt (zooms : list ZoomEvent.t) z' :
  In z' (map (App.dragZoom id mode a b dt) zooms) ->
  ZoomEvent.id z' = id ->
  match mode with
  | move => ZoomEvent.startTime z' = Qmax 0 (a + dt)
  | resize => ZoomEvent.duration z' = Qmax 0.5 (b + dt)
  end.
Proof.
  intros Hin Hid. apply in_map_iff in Hin. destruct Hin as (z & <- & _).
  rewrite dragZoom_id in Hid. unfold App.dragZoom.
  rewrite (proj2 (String.eqb_eq _ _) Hid). cbn [negb].
  destruct mode; reflexivity.
Qed.

Lemma dragged_clip id mode a b dt (clips : list VideoClip.t) c' :
  In c' (map (App.dragClip id mode a b dt) clips) ->
  VideoClip.id c' = id ->
  match mode with
  | move => VideoClip.startTime c' = Qmax 0 (a + dt)
  | resize => VideoClip.duration c' = Qmax 0.5 (b + dt)
  end.
Proof.
  intros Hin Hid. apply in_map_iff in Hin. destruct Hin as (c & <- & _).
  rewrite dragClip_id in Hid. unfold App.dragClip.
  rewrite (proj2 (String.eqb_eq _ _) Hid). cbn [negb].
  destruct mode; reflexivity.
Qed.

Lemma follows_move (scale initialStart dpx : Q) :
  0 < scale ->
  (0 <= initialStart + dpx / scale ->
   TimelineView.itemLeft (Qmax 0 (initialStart + dpx / scale)) scale
   == TimelineView.itemLeft initialStart scale + dpx) /\
  (initialStart + dpx / scale <= 0 ->
   TimelineView.itemLeft (Qmax 0 (initialStart + dpx / scale)) scale == 16).
Proof.
  intros Hs. unfold TimelineView.itemLeft. split; intros H.
  - rewrite (Qmax_eq_r _ _ H). field. lra.
  - rewrite (Qmax_eq_l _ _ H). ring.
Qed.

Lemma follows_resize (scale initialDuration dpx : Q) :
  0 < scale ->
  (0.5 <= initialDuration + dpx / scale ->
   Qmax 0.5 (initialDuration + dpx / scale) * scale
   == initialDuration * scale + dpx) /\
  (initialDuration + dpx / scale <= 0.5 ->
   Qmax 0.5 (initialDuration + dpx / scale) == 0.5).
Proof.
  intros Hs. split; intros H.
  - rewrite (Qmax_eq_r _ _ H). field. lra.
  - apply Qmax_eq_l. exact H.
Qed.

(** X5. A dragged item follows the pointer pixel for pixel.  In move mode
    the left edge of every item with the dragged id is its left edge at
    the start of the drag plus the pixel delta, as long as that
    does not put its start before time 0, where it stops at pixel 16.  In
    resize mode its duration times the scale, the drawn width, is the
    initial one plus the pixel delta, as long as the duration stays at
    least 0.5, where it stops. *)
Theorem X5_drag_follows_pointer (s : App.State) (el : App.TimelineEl)
        (clientX : Q) (kind : DragKind) (id : string) (mode : DragMode)
        (startX initialStart initialDuration : Q) :
  App.dragState s = Some (DragItem kind id mode startX initialStart initialDuration) ->
  App.timelineRef s = Some el ->
  0 < App.timelineScale s ->
  let scale := App.timelineScale s in
  let dpx := App.relativeX el clientX - startX in
  let dt := dpx / scale in
  let s' := App.handleMouseMove clientX s in
  let follows (start' dur' : Q) : Prop :=
    match mode with
    | move =>
        (0 <= initialStart + dt ->
         TimelineView.itemLeft start' scale
         == TimelineView.itemLeft initialStart scale + dpx) /\
        (initialStart + dt <= 0 -> TimelineView.itemLeft start' scale == 16)
    | resize =>
        (0.5 <= initialDuration + dt ->
         dur' * scale == initialDuration * scale + dpx) /\
        (initialDuration + dt <= 0.5 -> dur' == 0.5)
    end in
  match kind with
  | zoom =>
      forall z', In z' (App.zooms s') -> ZoomEvent.id z' = id ->
                 follows (ZoomEvent.startTime z') (ZoomEvent.duration z')
  | clip =>
      forall c', In c' (App.clips s') -> VideoClip.id c' = id ->
                 follows (VideoClip.startTime c') (VideoClip.duration c')
  end.
Proof.
  intros Hd Hel Hscale. cbn zeta.
  unfold App.handleMouseMove. rewrite Hd, Hel.
  destruct kind; cbn [App.zooms App.clips App.setZooms App.setClips];
    intros i' Hin Hid.
  - pose proof (dragged_zoom _ _ _ _ _ _ _ Hin Hid) as Hnew.
    destruct mode; rewrite Hnew;
      [apply follows_move | apply follows_resize]; exact Hscale.
  - pose proof (dragged_clip _ _ _ _ _ _ _ Hin Hid) as Hnew.
    destruct mode; rewrite Hnew;
      [apply follows_move | apply follows_resize]; exact Hscale.
Qed.

(** The example zoom, dragged 80 pixels to the right, is drawn 80 pixels
    further right. *)
Lemma X5_drag_follows_pointer_witness :
  TimelineView.itemLeft (ZoomEvent.startTime exampleMoved) 80
  == TimelineView.itemLeft 2 80 + 80.
Proof.
  assert (Hscale : 0 < App.timelineScale examplePressed) by reflexivity.
  assert (Hin : In exampleMoved (App.zooms (App.handleMouseMove 196 examplePressed)))
    by (left; reflexivity).
  destruct (X5_drag_follows_pointer examplePressed (App.mkTimelineEl 0 0) 196
              zoom "z1" move 100 2 3 eq_refl eq_refl Hscale exampleMoved Hin eq_refl)
    as [Hfollow _].
  rewrite Hfollow; [reflexivity | vm_compute; discriminate].
Defined.

Lemma dragZoom_in_range id mode a b dt z :
  zoomInRange z -> zoomInRange (App.dragZoom id mode a b dt z).
Proof.
  intros [Hs Hd]. unfold App.dragZoom, zoomInRange.
  destruct (String.eqb (ZoomEvent.id z) id); cbn [negb]; [|split; assumption].
  destruct mode; cbn; split; try assumption; apply Qmax_lower_l.
Qed.

Lemma dragClip_in_range id mode a b dt c :
  clipInRange c -> clipInRange (App.dragClip id mode a b dt c).
Proof.
  intros [Hs Hd]. unfold App.dragClip, clipInRange.
  destruct (String.eqb (VideoClip.id c) id); cbn [negb]; [|split; assumption].
  destruct mode; cbn; split; try assumption; apply Qmax_lower_l.
Qed.

Lemma Forall_map_preserved {A} (P : A -> Prop) (f : A -> A) (l : list A) :
  (forall a, P a -> P (f a)) -> Forall P l -> Forall P (map f l).
Proof.
  intros Hf Hl. induction Hl; simpl; constructor; auto.
Qed.

(** X6. Whatever the drag state and wherever the pointer goes, a
    pointer-move keeps the items in range: starts that were not negative
    stay so, durations of at least 0.5 stay so, and the ids of the zoom
    events and of the clips, their number and their order do not
    change. *)
Theorem X6_pointer_move_keeps_items_in_range (s : App.State) (clientX : Q) :
  let s' := App.handleMouseMove clientX s in
  (Forall zoomInRange (App.zooms s) -> Forall zoomInRange (App.zooms s')) /\
  (Forall clipInRange (App.clips s) -> Forall clipInRange (App.clips s')) /\
  map ZoomEvent.id (App.zooms s') = map ZoomEvent.id (App.zooms s) /\
  map VideoClip.id (App.clips s') = map VideoClip.id (App.clips s).
Proof.
  cbn zeta. unfold App.handleMouseMove.
  destruct (App.dragState s) as [[kind id mode startX a b|]|];
    destruct (App.timelineRef s) as [el|]; try (repeat split; auto; fail).
  destruct kind; cbn [App.zooms App.clips App.setZooms App.setClips].
  - split; [|split; [auto|split; [|reflexivity]]].
    + apply Forall_map_preserved. intros z. apply dragZoom_in_range.
    + rewrite map_map. apply map_ext. intro z. apply dragZoom_id.
  - split; [auto|split; [|split; [reflexivity|]]].
    + apply Forall_map_preserved. intros c. apply dragClip_in_range.
    + rewrite map_map. apply map_ext. intro c. apply dragClip_id.
Qed.

Lemma X6_pointer_move_keeps_items_in_range_witness :
  Forall zoomInRange (App.zooms (App.handleMouseMove (-5000) examplePressed)).
Proof.
  apply (proj1 (X6_pointer_move_keeps_items_in_range examplePressed (-5000))).
  repeat constructor; vm_compute; discriminate.
Defined.

(** ** Active clip, title cards and new zoom events *)

Lemma halfOpenContains_iff t c :
  Edit.halfOpenContains t c = true <->
  VideoClip.startTime c <= t /\ t < VideoClip.startTime c + VideoClip.duration c.
Proof.
  unfold Edit.halfOpenContains. rewrite andb_true_iff, geb_iff, ltb_iff. tauto.
Qed.





Lemma find_both {A} (p q : A -> bool) (l : list A) (a : A) :
  find p l = Some a -> q a = true -> find (fun x => q x && p x) l = Some a.
Proof.
  induction l as [|h l IH]; simpl; [discriminate|].
  destruct (p h) eqn:Hp.
  - intros [= ->] Hq. rewrite Hq. reflexivity.
  - intros Hf Hq. rewrite andb_false_r. apply IH; assumption.
Qed.

Lemma same_dimensions_same_layout (c v : VideoClip.t) :
  VideoClip.width c = VideoClip.width v ->
  VideoClip.height c = VideoClip.height v ->
  forall showWindowFrame contentScale ratio containerWidth containerHeight,
    EditorCanvas.getContainerDimensions (Some c) showWindowFrame contentScale ratio
    = EditorCanvas.getContainerDimensions (Some v) showWindowFrame contentScale ratio /\
    EditorCanvas.getFittedDimensions (Some c) showWindowFrame containerWidth containerHeight
    = EditorCanvas.getFittedDimensions (Some v) showWindowFrame containerWidth containerHeight.
Proof.
  intros Hw Hh frame cs ratio cw ch.
  unfold EditorCanvas.getContainerDimensions, EditorCanvas.getFittedDimensions,
    EditorCanvas.clipW, EditorCanvas.clipH.
  rewrite Hw, Hh. split; reflexivity.
Qed.

(** X8. A new title card is appended to the clips, selected, and is at
    once the active clip at the current time.  When the clip that was
    active there is a video clip, the card takes its width and height, so
    the container and the fitted window computed for the card are those
    computed for that clip: adding a title does not resize the canvas. *)
Theorem X8_title_card_is_active (newId text : string) (style : TitleStyle.t)
        (s : App.State) :
  let s' := Edit.handleAddTitleClip newId text style s in
  exists card,
    App.clips s' = App.clips s ++ [card] /\
    Edit.activeClip (App.clips s') (App.currentTime s') = Some card /\
    VideoClip.id card = newId /\
    VideoClip.type card = title /\
    VideoClip.text card = Some text /\
    App.selectedClipId s' = Some newId /\
    App.currentTime s' = App.currentTime s /\
    (forall v,
       Edit.activeClip (App.clips s) (App.currentTime s) = Some v ->
       VideoClip.type v = video ->
       forall showWindowFrame contentScale ratio containerWidth containerHeight,
         EditorCanvas.getContainerDimensions (Some card) showWindowFrame
                                             contentScale ratio
         = EditorCanvas.getContainerDimensions (Some v) showWindowFrame
                                               contentScale ratio /\
         EditorCanvas.getFittedDimensions (Some card) showWindowFrame
                                          containerWidth containerHeight
         = EditorCanvas.getFittedDimensions (Some v) showWindowFrame
                                            containerWidth containerHeight).
Proof.
  cbn zeta. unfold Edit.handleAddTitleClip.
  set (avc := find (fun c => Edit.isVideo c && Edit.halfOpenContains (App.currentTime s) c)
                   (rev (App.clips s))).
  cbn [App.clips App.currentTime App.selectedClipId App.setClips
       App.setSelectedClipId].
  eexists. split; [reflexivity|]. split.
  - unfold Edit.activeClip. rewrite rev_app_distr. cbn [rev app find].
    replace (Edit.halfOpenContains (App.currentTime s) _) with true; [reflexivity|].
    symmetry. apply halfOpenContains_iff. cbn. lra.
  - do 5 (split; [reflexivity|]).
    intros v Hv Htype showWindowFrame contentScale ratio containerWidth containerHeight.
    assert (Havc : avc = Some v).
    { apply find_both; [exact Hv|]. unfold Edit.isVideo. rewrite Htype. reflexivity. }
    apply same_dimensions_same_layout; cbn; rewrite Havc; reflexivity.
Qed.

Lemma X8_title_card_is_active_witness :
  exists card,
    App.clips (Edit.handleAddTitleClip "t1" "Hello"
                 (TitleStyle.Build "Inter" 64 center "#ffffff" "#0b0b10" 50 50)
                 (App.setClips [recording1080] exampleIdle))
    = [recording1080; card] /\
    EditorCanvas.getContainerDimensions (Some card) true 1 Auto
    = EditorCanvas.getContainerDimensions (Some recording1080) true 1 Auto.
Proof.
  destruct (X8_title_card_is_active "t1" "Hello"
              (TitleStyle.Build "Inter" 64 center "#ffffff" "#0b0b10" 50 50)
              (App.setClips [recording1080] exampleIdle))
    as (card & Hclips & _ & _ & _ & _ & _ & _ & Hdims).
  exists card. split; [exact Hclips|].
  apply (Hdims recording1080 eq_refl eq_refl true 1 Auto 800 450).
Defined.




(** X10. A double click inside the laid out canvas, while a video clip is
    active, appends a zoom event at the current time with duration 2 and
    scale 1.5 whose focus is the clicked point as percentages of the canvas,
    both between 0 and 100, and selects it; a click at the centre gives
    (50, 50).  Without an active video clip or without the container the
    double click changes nothing. *)
Theorem X10_double_click_zoom (activeClip : option VideoClip.t)
        (containerRef : option CanvasEvents.Rect) (clientX clientY : Q)
        (newId : string) (s : App.State) :
  let s' := CanvasEvents.doubleClick activeClip containerRef clientX clientY newId s in
  (forall c rect,
     activeClip = Some c -> VideoClip.type c = video ->
     containerRef = Some rect ->
     0 < CanvasEvents.width rect -> 0 < CanvasEvents.height rect ->
     CanvasEvents.left rect <= clientX <= CanvasEvents.left rect + CanvasEvents.width rect ->
     CanvasEvents.top rect <= clientY <= CanvasEvents.top rect + CanvasEvents.height rect ->
     exists z,
       App.zooms s' = App.zooms s ++ [z] /\
       App.selectedZoomId s' = Some newId /\
       ZoomEvent.id z = newId /\
       ZoomEvent.startTime z = App.currentTime s /\
       ZoomEvent.duration z == 2 /\ ZoomEvent.scale z == 1.5 /\
       0 <= ZoomEvent.x z <= 100 /\ 0 <= ZoomEvent.y z <= 100 /\
       ZoomEvent.x z * CanvasEvents.width rect
       == (clientX - CanvasEvents.left rect) * 100 /\
       ZoomEvent.y z * CanvasEvents.height rect
       == (clientY - CanvasEvents.top rect) * 100) /\
  ((activeClip = None \/ (exists c, activeClip = Some c /\ VideoClip.type c = title)
    \/ containerRef = None) -> s' = s).
Proof.
  cbn zeta. split.
  - intros c rect -> Htype -> Hw Hh Hx Hy.
    unfold CanvasEvents.doubleClick, CanvasEvents.handleDoubleClick, Edit.isVideo.
    rewrite Htype. unfold Edit.handleCanvasDoubleClick.
    cbn [App.zooms App.selectedZoomId App.setZooms App.setSelectedZoomId].
    eexists. split; [reflexivity|]. split; [reflexivity|].
    split; [reflexivity|]. split; [reflexivity|].
    cbn [ZoomEvent.duration ZoomEvent.scale ZoomEvent.x ZoomEvent.y].
    split; [reflexivity|]. split; [reflexivity|].
    assert (Hdiv : forall a b, 0 < b -> 0 <= a <= b -> 0 <= a / b * 100 <= 100).
    { intros a b Hb [Ha0 Hab]. split.
      - apply Qmult_le_0_compat; [|discriminate].
        apply Qle_shift_div_l; lra.
      - assert (a / b <= 1) by (apply Qle_shift_div_r; lra). lra. }
    split; [apply Hdiv; lra|]. split; [apply Hdiv; lra|].
    split; field; lra.
  - intros [-> | [(c & -> & Htype) | ->]]; unfold CanvasEvents.doubleClick.
    + reflexivity.
    + unfold Edit.isVideo. rewrite Htype. reflexivity.
    + destruct activeClip as [c|]; [|reflexivity].
      destruct (Edit.isVideo c); reflexivity.
Qed.

(** A double click at the centre of an 800 by 450 canvas. *)
Lemma X10_double_click_zoom_witness :
  exists z,
    App.zooms (CanvasEvents.doubleClick (Some recording1080)
                 (Some (CanvasEvents.mkRect 100 50 800 450)) 500 275 "new" exampleIdle)
    = [exampleZoom; z] /\
    ZoomEvent.x z * 800 == (500 - 100) * 100.
Proof.
  destruct (proj1 (X10_double_click_zoom (Some recording1080)
                     (Some (CanvasEvents.mkRect 100 50 800 450)) 500 275 "new"
                     exampleIdle)
              recording1080 (CanvasEvents.mkRect 100 50 800 450)
              eq_refl eq_refl eq_refl)
    as (z & Hz & _ & _ & _ & _ & _ & _ & _ & Hx & _);
    try (vm_compute; (reflexivity || (split; discriminate))).
  exists z. split; [exact Hz | exact Hx].
Defined.

(** ** Removing and updating items *)

Lemma find_filter_kept {A} (p q : A -> bool) (l : list A) (a : A) :
  find p l = Some a -> q a = true -> find p (filter q l) = Some a.
Proof.
  induction l as [|h l IH]; simpl; [discriminate|].
  destruct (p h) eqn:Hp.
  - intros [= ->] Hq. rewrite Hq. simpl. rewrite Hp. reflexivity.
  - intros Hf Hq. destruct (q h); [simpl; rewrite Hp|]; apply IH; assumption.
Qed.

Lemma selected_eqb_true sel id : Edit.selected_eqb sel id = true <-> sel = Some id.
Proof.
  unfold Edit.selected_eqb. destruct sel as [i|]; [|split; discriminate].
  rewrite String.eqb_eq. split; [intros -> | intros [= ->]]; reflexivity.
Qed.

(** X11. Removing a zoom event by id deletes exactly the events with that
    id and keeps the others in their order; the selection is cleared
    when it was that id and kept otherwise, so a selection that named
    an existing event still names one; wherever another event was the
    active one it still is; and removing the same id again changes
    nothing. *)
Theorem X11_remove_zoom (id : string) (s : App.State) :
  let s' := Edit.removeZoom id s in
  (forall z, In z (App.zooms s') <-> In z (App.zooms s) /\ ZoomEvent.id z <> id) /\
  (App.selectedZoomId s = Some id -> App.selectedZoomId s' = None) /\
  (App.selectedZoomId s <> Some id -> App.selectedZoomId s' = App.selectedZoomId s) /\
  ((forall i, App.selectedZoomId s = Some i -> In i (map ZoomEvent.id (App.zooms s))) ->
   forall i, App.selectedZoomId s' = Some i -> In i (map ZoomEvent.id (App.zooms s'))) /\
  (forall t z,
     EditorCanvas.activeZoom (App.zooms s) t = Some z -> ZoomEvent.id z <> id ->
     EditorCanvas.activeZoom (App.zooms s') t = Some z) /\
  Edit.removeZoom id s' = s'.
Proof.
  cbn zeta.
  assert (Hz : App.zooms (Edit.removeZoom id s)
               = filter (fun z => negb (String.eqb (ZoomEvent.id z) id)) (App.zooms s)).
  { unfold Edit.removeZoom. destruct (Edit.selected_eqb _ _); reflexivity. }
  assert (Hkeep : forall z, negb (String.eqb (ZoomEvent.id z) id) = true
                            <-> ZoomEvent.id z <> id).
  { intro z. rewrite negb_true_iff. apply String.eqb_neq. }
  assert (Hsel : App.selectedZoomId (Edit.removeZoom id s)
                 = if Edit.selected_eqb (App.selectedZoomId s) id then None
                   else App.selectedZoomId s).
  { unfold Edit.removeZoom. destruct (Edit.selected_eqb _ _); reflexivity. }
  split; [|split; [|split; [|split; [|split]]]].
  - intro z. rewrite Hz, filter_In, Hkeep. tauto.
  - intros H. rewrite Hsel, (proj2 (selected_eqb_true _ _) H). reflexivity.
  - intros H. rewrite Hsel.
    destruct (Edit.selected_eqb (App.selectedZoomId s) id) eqn:E; [|reflexivity].
    apply selected_eqb_true in E. contradiction.
  - intros Hinv i Hi. rewrite Hsel in Hi. rewrite Hz.
    destruct (Edit.selected_eqb (App.selectedZoomId s) id) eqn:E; [discriminate|].
    specialize (Hinv i Hi). apply in_map_iff in Hinv.
    destruct Hinv as (z & Hzi & Hin).
    apply in_map_iff. exists z. split; [exact Hzi|].
    apply filter_In. split; [exact Hin|]. apply Hkeep. intro Heq.
    assert (App.selectedZoomId s = Some id) by congruence.
    apply selected_eqb_true in H. congruence.
  - intros t z Hact Hid. rewrite Hz. unfold EditorCanvas.activeZoom in *.
    apply find_filter_kept; [exact Hact | apply Hkeep; exact Hid].
  - unfold Edit.removeZoom at 1. rewrite Hz, Hsel.
    assert (Hff : forall l : list ZoomEvent.t,
              filter (fun z => negb (String.eqb (ZoomEvent.id z) id))
                     (filter (fun z => negb (String.eqb (ZoomEvent.id z) id)) l)
              = filter (fun z => negb (String.eqb (ZoomEvent.id z) id)) l).
    { induction l as [|h l IH]; simpl; [reflexivity|].
      destruct (negb (String.eqb (ZoomEvent.id h) id)) eqn:E; simpl;
        [rewrite E, IH|]; auto. }
    rewrite Hff. unfold Edit.removeZoom.
    destruct (Edit.selected_eqb (App.selectedZoomId s) id) eqn:E;
      cbn [Edit.selected_eqb]; [reflexivity|].
    rewrite E. reflexivity.
Qed.

Lemma X11_remove_zoom_witness :
  App.selectedZoomId
    (Edit.removeZoom "z1" (App.setSelectedZoomId (Some "z1"%string) exampleIdle)) = None /\
  EditorCanvas.activeZoom
    (App.zooms (Edit.removeZoom "b" (App.setZooms [zoomA; zoomB] exampleIdle))) 3
  = Some zoomA.
Proof.
  split.
  - apply (proj1 (proj2 (X11_remove_zoom "z1"
                           (App.setSelectedZoomId (Some "z1"%string) exampleIdle)))).
    reflexivity.
  - apply (proj1 (proj2 (proj2 (proj2 (proj2
             (X11_remove_zoom "b" (App.setZooms [zoomA; zoomB] exampleIdle))))))).
    + reflexivity.
    + discriminate.
Defined.

Lemma timelineDuration_mono (clips clips' : list VideoClip.t)
      (zooms zooms' : list ZoomEvent.t) :
  (forall c, In c clips' -> exists c0, In c0 clips /\ clipEnd c <= clipEnd c0) ->
  (forall z, In z zooms' -> exists z0, In z0 zooms /\ zoomEnd z <= zoomEnd z0) ->
  App.timelineDuration clips' zooms' <= App.timelineDuration clips zooms.
Proof.
  intros Hc Hz.
  destruct (timelineDuration_spec clips zooms) as (H15 & Hcs & Hzs & _).
  destruct (timelineDuration_spec clips' zooms') as (_ & _ & _ & Hwhich).
  destruct Hwhich as [H | [(c & Hin & H) | (z & Hin & H)]].
  - lra.
  - destruct (Hc c Hin) as (c0 & Hin0 & Hle). specialize (Hcs c0 Hin0). lra.
  - destruct (Hz z Hin) as (z0 & Hin0 & Hle). specialize (Hzs z0 Hin0). lra.
Qed.

(** X12. Deleting the selected clip removes every clip with the selected
    id, keeps the others in their order, clears the selection and leaves
    the zoom events alone; without a selection nothing changes.  The
    timeline never gets longer by it, and stays at least 15 seconds
    long. *)
Theorem X12_delete_clip (s : App.State) :
  let s' := Edit.handleDeleteClip s in
  (App.selectedClipId s = None -> s' = s) /\
  (forall id,
     App.selectedClipId s = Some id -> id <> ""%string ->
     (forall c, In c (App.clips s') <-> In c (App.clips s) /\ VideoClip.id c <> id) /\
     App.selectedClipId s' = None /\
     App.zooms s' = App.zooms s) /\
  15 <= App.duration s' <= App.duration s.
Proof.
  cbn zeta. unfold Edit.handleDeleteClip. split; [|split].
  - intros ->. reflexivity.
  - intros id -> Hne.
    rewrite (proj2 (String.eqb_neq _ _) Hne).
    cbn [App.clips App.zooms App.selectedClipId App.setClips App.setSelectedClipId].
    split; [|split; reflexivity].
    intro c. rewrite filter_In, negb_true_iff, String.eqb_neq. tauto.
  - split; [apply timelineDuration_min|].
    destruct (App.selectedClipId s) as [id|]; [|apply Qle_refl].
    destruct (String.eqb id ""); [apply Qle_refl|].
    unfold App.duration.
    cbn [App.clips App.zooms App.setClips App.setSelectedClipId].
    apply timelineDuration_mono.
    + intros c Hc. apply filter_In in Hc. exists c. split; [tauto | apply Qle_refl].
    + intros z Hz. exists z. split; [exact Hz | apply Qle_refl].
Qed.

Lemma X12_delete_clip_witness :
  App.selectedClipId (Edit.handleDeleteClip
                        (App.setSelectedClipId (Some "1"%string) exampleIdle)) = None /\
  Edit.handleDeleteClip exampleIdle = exampleIdle.
Proof.
  split.
  - apply (proj1 (proj2 (X12_delete_clip
                           (App.setSelectedClipId (Some "1"%string) exampleIdle)))
             "1"%string eq_refl).
    discriminate.
  - apply (proj1 (X12_delete_clip exampleIdle)). reflexivity.
Defined.





(** ** Saving, recording and generated zooms *)

Lemma withoutSource_not_blob c : Edit.isBlobSource (Edit.withoutSource c) = false.
Proof. reflexivity. Qed.





Lemma getMetadata_dimensions (e : Edit.MetadataEvent) :
  ~ Edit.md_width (Edit.getMetadata e) == 0 /\
  ~ Edit.md_height (Edit.getMetadata e) == 0.
Proof.
  destruct e as [d w h|]; cbn [Edit.getMetadata Edit.md_width Edit.md_height].
  - split; apply orElse_nonzero; vm_compute; discriminate.
  - split; vm_compute; discriminate.
Qed.

(** X15. When a recording stops, the placeholder clips named
    "Demo Project" are gone, the other clips are kept in their order, and
    the recording is appended as a video clip that starts at 0, is
    selected, and has non-zero dimensions of its own, which the layout
    then uses; the current time is 0.  Its duration is the duration of the
    recorded video, or 10 seconds when that is not finite or the
    metadata cannot be read; when it is positive the recording is the
    active clip at time 0. *)
Theorem X15_recording_becomes_clip (newId rawUrl : string)
        (e : Edit.MetadataEvent) (s : App.State) :
  let s' := Edit.handleStop newId rawUrl e s in
  exists rec,
    App.clips s'
    = filter (fun c => negb (String.eqb (VideoClip.name c) "Demo Project")) (App.clips s)
      ++ [rec] /\
    (forall c, In c (App.clips s') -> VideoClip.name c <> "Demo Project"%string) /\
    VideoClip.id rec = newId /\ VideoClip.type rec = video /\
    VideoClip.startTime rec = 0 /\ VideoClip.source rec = Some rawUrl /\
    VideoClip.width rec = Some (EditorCanvas.clipW rec) /\
    VideoClip.height rec = Some (EditorCanvas.clipH rec) /\
    (forall d w h, e = Edit.LoadedMetadata (Some d) w h -> VideoClip.duration rec = d) /\
    ((e = Edit.MetadataError \/ exists w h, e = Edit.LoadedMetadata None w h) ->
     VideoClip.duration rec = 10) /\
    App.selectedClipId s' = Some newId /\
    App.currentTime s' = 0 /\
    (0 < VideoClip.duration rec ->
     Edit.activeClip (App.clips s') (App.currentTime s') = Some rec).
Proof.
  cbn zeta. unfold Edit.handleStop.
  cbn [App.clips App.currentTime App.selectedClipId App.setClips
       App.setSelectedClipId App.setCurrentTime].
  eexists. split; [reflexivity|].
  destruct (getMetadata_dimensions e) as [Hw Hh].
  split; [|split; [reflexivity|split; [reflexivity|split; [reflexivity|
          split; [reflexivity|split; [|split; [|split; [|split; [|split;
          [reflexivity|split; [reflexivity|]]]]]]]]]]].
  - intros c Hc. apply in_app_or in Hc. destruct Hc as [Hc | [<- | []]].
    + apply filter_In in Hc. destruct Hc as [_ Hc].
      apply negb_true_iff, String.eqb_neq in Hc. exact Hc.
    + discriminate.
  - cbn [VideoClip.width]. f_equal. symmetry. apply clipW_given; [reflexivity | exact Hw].
  - cbn [VideoClip.height]. f_equal. symmetry. apply clipH_given; [reflexivity | exact Hh].
  - intros d w h ->. reflexivity.
  - intros [-> | (w & h & ->)]; reflexivity.
  - cbn [VideoClip.duration]. intros Hd.
    unfold Edit.activeClip. rewrite rev_app_distr. cbn [rev app find].
    replace (Edit.halfOpenContains 0 _) with true; [reflexivity|].
    symmetry. apply halfOpenContains_iff. cbn. lra.
Qed.

(** The first recording of 4 seconds replaces the demo clip. *)
Lemma X15_recording_becomes_clip_witness :
  exists rec,
    App.clips (Edit.handleStop "r" "blob:42" (Edit.LoadedMetadata (Some 4) 1920 1080)
                               exampleIdle) = [rec] /\
    Edit.activeClip
      (App.clips (Edit.handleStop "r" "blob:42" (Edit.LoadedMetadata (Some 4) 1920 1080)
                                  exampleIdle)) 0 = Some rec.
Proof.
  destruct (X15_recording_becomes_clip "r" "blob:42"
              (Edit.LoadedMetadata (Some 4) 1920 1080) exampleIdle)
    as (rec & Hclips & _ & _ & _ & _ & _ & _ & _ & Hdur & _ & _ & _ & Hactive).
  exists rec. split; [exact Hclips|].
  apply Hactive. rewrite (Hdur 4 1920 1080 eq_refl). reflexivity.
Defined.

(** ** Generated zooms *)

Lemma generatedZoom_spec uuid random (D : Q) (i : nat) :
  (forall n, 0 <= random n < 1) ->
  let z := Edit.generatedZoom uuid random D 3 i in
  ZoomEvent.startTime z == (inject_Z (Z.of_nat i) + 1) * D / 4 /\
  ZoomEvent.duration z = 2.5 /\ ZoomEvent.scale z = 1.5 /\
  ZoomEvent.id z = uuid i /\
  20 <= ZoomEvent.x z < 80 /\ 20 <= ZoomEvent.y z < 80.
Proof.
  intros Hr. cbn zeta. unfold Edit.generatedZoom.
  cbn [ZoomEvent.startTime ZoomEvent.duration ZoomEvent.scale ZoomEvent.id
       ZoomEvent.x ZoomEvent.y].
  split; [|split; [reflexivity|split; [reflexivity|split; [reflexivity|]]]].
  - change (inject_Z (Z.of_nat 3) + 1) with 4. field.
  - pose proof (Hr (2 * i)%nat). pose proof (Hr (2 * i + 1)%nat). split; lra.
Qed.

(** X16. When no video clip has a source, generating zooms replaces the
    zoom events by three events of 2.5 seconds and scale 1.5, spread at
    one, two and three quarters of the timeline duration, with a focus
    between 20 and 80 percent on both axes (the random numbers being in
    [0, 1)).  They lie inside the timeline and do not overlap, so each
    of them is the active zoom throughout its own interval, and the
    timeline does not get longer.  With such a clip the events come from
    the suggestion service instead. *)
Theorem X16_generated_zooms (uuid : nat -> string) (random : nat -> Q)
        (s : App.State) :
  (forall n, 0 <= random n < 1) ->
  (find (fun c => Edit.isVideo c && Edit.hasSource c) (App.clips s) = None ->
   exists z0 z1 z2 s',
     Edit.autoGenerateZooms uuid random s = Some s' /\
     App.zooms s' = [z0; z1; z2] /\
     App.selectedZoomId s' = None /\ App.clips s' = App.clips s /\
     Forall (fun z =>
               ZoomEvent.duration z = 2.5 /\ ZoomEvent.scale z = 1.5 /\
               20 <= ZoomEvent.x z < 80 /\ 20 <= ZoomEvent.y z < 80 /\
               0 < ZoomEvent.startTime z /\
               ZoomEvent.startTime z + ZoomEvent.duration z <= App.duration s)
            [z0; z1; z2] /\
     ZoomEvent.startTime z0 == App.duration s / 4 /\
     ZoomEvent.startTime z1 == App.duration s / 2 /\
     ZoomEvent.startTime z2 == 3 * App.duration s / 4 /\
     ZoomEvent.startTime z0 + ZoomEvent.duration z0 < ZoomEvent.startTime z1 /\
     ZoomEvent.startTime z1 + ZoomEvent.duration z1 < ZoomEvent.startTime z2 /\
     (forall t z,
        In z (App.zooms s') ->
        ZoomEvent.startTime z <= t <= ZoomEvent.startTime z + ZoomEvent.duration z ->
        EditorCanvas.activeZoom (App.zooms s') t = Some z) /\
     App.duration s' <= App.duration s) /\
  ((exists c, find (fun c => Edit.isVideo c && Edit.hasSource c) (App.clips s) = Some c) ->
   Edit.autoGenerateZooms uuid random s = None).
Proof.
  intros Hr. split.
  - intros Hnone. unfold Edit.autoGenerateZooms. rewrite Hnone.
    cbn [seq map].
    pose proof (timelineDuration_min (App.clips s) (App.zooms s)) as HD.
    change App.DEFAULT_DURATION with 15 in HD. fold (App.duration s) in HD.
    set (D := App.duration s) in *.
    destruct (generatedZoom_spec uuid random D 0 Hr) as (S0 & D0 & C0 & _ & X0 & Y0).
    destruct (generatedZoom_spec uuid random D 1 Hr) as (S1 & D1 & C1 & _ & X1 & Y1).
    destruct (generatedZoom_spec uuid random D 2 Hr) as (S2 & D2 & C2 & _ & X2 & Y2).
    change (inject_Z (Z.of_nat 0)) with 0 in S0.
    change (inject_Z (Z.of_nat 1)) with 1 in S1.
    change (inject_Z (Z.of_nat 2)) with 2 in S2.
    set (z0 := Edit.generatedZoom uuid random D 3 0) in *.
    set (z1 := Edit.generatedZoom uuid random D 3 1) in *.
    set (z2 := Edit.generatedZoom uuid random D 3 2) in *.
    exists z0, z1, z2. eexists. split; [reflexivity|].
    cbn [App.zooms App.clips App.selectedZoomId App.setZooms App.setSelectedZoomId].
    split; [reflexivity|]. split; [reflexivity|]. split; [reflexivity|].
    assert (S0' : 4 * ZoomEvent.startTime z0 == D) by (rewrite S0; field).
    assert (S1' : 4 * ZoomEvent.startTime z1 == 2 * D) by (rewrite S1; field).
    assert (S2' : 4 * ZoomEvent.startTime z2 == 3 * D) by (rewrite S2; field).
    assert (Q0 : ZoomEvent.startTime z0 == D / 4) by (rewrite S0; field).
    assert (Q1 : ZoomEvent.startTime z1 == D / 2) by (rewrite S1; field).
    assert (Q2 : ZoomEvent.startTime z2 == 3 * D / 4) by (rewrite S2; field).
    clear S0 S1 S2.
    assert (E0 : ZoomEvent.duration z0 == 2.5) by (rewrite D0; reflexivity).
    assert (E1 : ZoomEvent.duration z1 == 2.5) by (rewrite D1; reflexivity).
    assert (E2 : ZoomEvent.duration z2 == 2.5) by (rewrite D2; reflexivity).
    destruct (timelineDuration_spec (App.clips s) (App.zooms s)) as (_ & Hcs & _ & _).
    fold (App.duration s) in Hcs. fold D in Hcs.
    destruct (timelineDuration_spec (App.clips s) [z0; z1; z2]) as (_ & _ & _ & Hw).
    unfold zoomEnd, clipEnd in Hcs, Hw.
    unfold App.duration at 1.
    cbn [App.zooms App.clips App.setZooms App.setSelectedZoomId].
    set (D' := App.timelineDuration (App.clips s) [z0; z1; z2]) in *.
    clearbody D' z0 z1 z2 D.
    split; [|split; [|split; [|split; [|split; [|split; [|split]]]]]].
    + apply Forall_cons; [|apply Forall_cons; [|apply Forall_cons; [|apply Forall_nil]]];
        (split; [assumption|]); (split; [assumption|]); (split; [assumption|]);
        (split; [assumption|]); clear Q0 Q1 Q2; split; lra.
    + exact Q0.
    + exact Q1.
    + exact Q2.
    + clear Q0 Q1 Q2. lra.
    + clear Q0 Q1 Q2. lra.
    + clear Q0 Q1 Q2. intros t z Hin Ht. unfold EditorCanvas.activeZoom. cbn [find].
      assert (Hc : forall z', EditorCanvas.zoomContains t z' = false <->
                 ~ (ZoomEvent.startTime z' <= t
                    <= ZoomEvent.startTime z' + ZoomEvent.duration z')).
      { intro z'. rewrite <- zoomContains_iff.
        destruct (EditorCanvas.zoomContains t z'); split; congruence. }
      destruct Hin as [<- | [<- | [<- | []]]].
      * rewrite (proj2 (zoomContains_iff t z0) Ht). reflexivity.
      * rewrite (proj2 (Hc z0)) by lra.
        rewrite (proj2 (zoomContains_iff t z1) Ht). reflexivity.
      * rewrite (proj2 (Hc z0)) by lra. rewrite (proj2 (Hc z1)) by lra.
        rewrite (proj2 (zoomContains_iff t z2) Ht). reflexivity.
    + clear Q0 Q1 Q2. destruct Hw as [H | [(c & Hin & H) | (z & Hin & H)]].
      * lra.
      * specialize (Hcs c Hin). lra.
      * destruct Hin as [<- | [<- | [<- | []]]]; lra.
  - intros (c & Hc). unfold Edit.autoGenerateZooms. rewrite Hc. reflexivity.
Qed.

Lemma X16_generated_zooms_witness :
  exists z0 z1 z2 s',
    Edit.autoGenerateZooms (fun _ => "u"%string) (fun _ => 0.5) exampleIdle = Some s' /\
    App.zooms s' = [z0; z1; z2] /\
    ZoomEvent.startTime z0 + ZoomEvent.duration z0 < ZoomEvent.startTime z1.
Proof.
  assert (Hr : forall n : nat, 0 <= (fun _ : nat => 0.5) n < 1)
    by (intro n; split; [discriminate | reflexivity]).
  destruct (proj1 (X16_generated_zooms (fun _ => "u"%string) (fun _ => 0.5)
                     exampleIdle Hr) eq_refl)
    as (z0 & z1 & z2 & s' & Hs' & Hz & _ & _ & _ & _ & _ & _ & Hgap & _).
  exists z0, z1, z2, s'. split; [exact Hs'|]. split; [exact Hz | exact Hgap].
Defined.

(** ** Progress of a backend export *)

Lemma StronglySorted_snoc {A} (R : A -> A -> Prop) (l : list A) (a : A) :
  StronglySorted R l -> (forall b, In b l -> R b a) -> StronglySorted R (l ++ [a]).
Proof.
  induction 1 as [|h l Hl IH Hh]; intros Ha; simpl.
  - constructor; constructor.
  - constructor.
    + apply IH. intros b Hb. apply Ha. right; exact Hb.
    + apply Forall_app. split; [exact Hh|]. constructor; [|constructor].
      apply Ha. left; reflexivity.
Qed.

Section Polling.

Context {Blob : Type}.
Variable download : VideoProcessingService.Awaited Blob.
Variable cleanup : VideoProcessingService.Awaited unit.

Local Abbreviation poll := (VideoProcessingService.poll download cleanup).

(** The reports stay percentages in increasing order along the loop, as
    long as each report made so far is at most 95 and at most what any
    later answer of the backend scales to. *)
Lemma poll_reports (responses : list (VideoProcessingService.Awaited
                                        VideoProcessingService.ProcessingJob)) :
  Forall backendInRange responses ->
  StronglySorted backendLe responses ->
  forall reports,
    Forall inPercent reports ->
    StronglySorted reportLe reports ->
    (forall r, In r reports -> fst r <= 95) ->
    (forall r st, In r reports ->
                  In (VideoProcessingService.Returned st) responses ->
                  fst r <= 10 + VideoProcessingService.progress st * 0.85) ->
    Forall inPercent (fst (poll responses reports)) /\
    StronglySorted reportLe (fst (poll responses reports)).
Proof.
  induction responses as [|r rest IH]; intros Hrange Hsorted reports Hin Hs H95 Hnext.
  - split; assumption.
  - inversion Hrange as [|? ? Hr Hrest]; subst.
    inversion Hsorted as [|? ? Hsrest Hle]; subst.
    destruct r as [st | message]; cbn [VideoProcessingService.poll];
      [|split; assumption].
    destruct (VideoProcessingService.status st) eqn:Est.
    + apply IH; try assumption.
      * apply Forall_app. split; [exact Hin|]. constructor; [|constructor].
        unfold inPercent, backendInRange in *. cbn [fst]. lra.
      * apply StronglySorted_snoc; [exact Hs|]. intros b Hb.
        unfold reportLe. cbn [fst]. apply (Hnext b st Hb). left; reflexivity.
      * intros b Hb. apply in_app_or in Hb. destruct Hb as [Hb | [<- | []]];
          [apply H95; exact Hb|].
        unfold backendInRange in Hr. cbn [fst]. lra.
      * intros b st' Hb Hst'. apply in_app_or in Hb.
        destruct Hb as [Hb | [<- | []]].
        -- apply (Hnext b st' Hb). right; exact Hst'.
        -- cbn [fst]. rewrite Forall_forall in Hle.
           specialize (Hle _ Hst'). unfold backendLe in Hle. lra.
    + assert (H1 : Forall inPercent (reports ++ [(95, VideoProcessingService.DownloadingResult)])).
      { apply Forall_app. split; [exact Hin|]. constructor; [|constructor].
        unfold inPercent. cbn [fst]. split; discriminate. }
      assert (H2 : StronglySorted reportLe
                     (reports ++ [(95, VideoProcessingService.DownloadingResult)])).
      { apply StronglySorted_snoc; [exact Hs|]. intros b Hb. apply H95. exact Hb. }
      destruct download as [result | message]; [|split; assumption].
      destruct cleanup as [u | message]; [|split; assumption].
      cbn [fst]. split.
      * apply Forall_app. split; [exact H1|]. constructor; [|constructor].
        unfold inPercent. cbn [fst]. split; discriminate.
      * apply StronglySorted_snoc; [exact H2|]. intros b Hb.
        apply in_app_or in Hb. unfold reportLe. cbn [fst].
        destruct Hb as [Hb | [<- | []]]; [specialize (H95 b Hb); lra|].
        cbn [fst]. discriminate.
    + split; assumption.
Qed.





End Polling.

(** X17. The progress reported during a backend export starts with 0,
    then 5 once the upload has returned, and every report lies between 0
    and 100 when the backend answers with percentages; when the backend
    progress never decreases, neither does the reported progress. *)
Theorem X17_progress_reports {Blob : Type}
        (download : VideoProcessingService.Awaited Blob)
        (cleanup : VideoProcessingService.Awaited unit)
        (upload : VideoProcessingService.Awaited string)
        (responses : list (VideoProcessingService.Awaited
                             VideoProcessingService.ProcessingJob)) :
  Forall backendInRange responses ->
  StronglySorted backendLe responses ->
  let reports :=
    fst (VideoProcessingService.processVideoWithProgress download cleanup upload
           responses) in
  Forall inPercent reports /\
  StronglySorted reportLe reports /\
  hd_error reports = Some (0, VideoProcessingService.UploadingVideo) /\
  (forall jobId, upload = VideoProcessingService.Returned jobId ->
                 nth_error reports 1
                 = Some (5, VideoProcessingService.ProcessingStarted)).
Proof.
  intros Hrange Hsorted. cbn zeta.
  unfold VideoProcessingService.processVideoWithProgress.
  assert (H0 : inPercent (0, VideoProcessingService.UploadingVideo))
    by (split; discriminate).
  assert (H5 : inPercent (5, VideoProcessingService.ProcessingStarted))
    by (split; discriminate).
  assert (Hhead : forall l reports,
            hd_error reports = Some (0, VideoProcessingService.UploadingVideo) ->
            nth_error reports 1 = Some (5, VideoProcessingService.ProcessingStarted) ->
            hd_error (fst (VideoProcessingService.poll download cleanup l reports))
            = Some (0, VideoProcessingService.UploadingVideo) /\
            nth_error (fst (VideoProcessingService.poll download cleanup l reports)) 1
            = Some (5, VideoProcessingService.ProcessingStarted)).
  { induction l as [|r l IH]; intros reports Hh Hn; [split; assumption|].
    assert (Hs : forall a, hd_error (reports ++ [a])
                           = Some (0, VideoProcessingService.UploadingVideo) /\
                           nth_error (reports ++ [a]) 1
                           = Some (5, VideoProcessingService.ProcessingStarted)).
    { intro a. destruct reports as [|r0 [|r1 reports]]; try discriminate.
      split; [exact Hh | exact Hn]. }
    destruct r as [st | message]; cbn [VideoProcessingService.poll];
      [|split; assumption].
    destruct (VideoProcessingService.status st).
    - apply IH; apply Hs.
    - destruct download; [destruct cleanup|]; cbn [fst].
      + destruct (Hs (95, VideoProcessingService.DownloadingResult)) as [Ha Hb].
        destruct reports as [|r0 [|r1 reports]]; try discriminate.
        split; [exact Ha | exact Hb].
      + apply Hs.
      + apply Hs.
    - split; assumption. }
  destruct upload as [jobId | message].
  - destruct (poll_reports download cleanup responses Hrange Hsorted
                [(0, VideoProcessingService.UploadingVideo);
                 (5, VideoProcessingService.ProcessingStarted)]) as [Hin Hs].
    + apply Forall_cons; [exact H0 | apply Forall_cons; [exact H5 | apply Forall_nil]].
    + apply SSorted_cons;
        [apply SSorted_cons; [apply SSorted_nil | apply Forall_nil]
        | apply Forall_cons; [unfold reportLe; cbn; discriminate | apply Forall_nil]].
    + intros r [<- | [<- | []]]; cbn; discriminate.
    + intros r st Hr Hst. rewrite Forall_forall in Hrange.
      specialize (Hrange _ Hst). unfold backendInRange in Hrange.
      destruct Hr as [<- | [<- | []]]; cbn [fst]; lra.
    + split; [exact Hin|]. split; [exact Hs|].
      destruct (Hhead responses [(0, VideoProcessingService.UploadingVideo);
                                 (5, VideoProcessingService.ProcessingStarted)]
                      eq_refl eq_refl) as [Hh Hn].
      split; [exact Hh|]. intros _ _. exact Hn.
  - cbn [fst]. split; [apply Forall_cons; [exact H0 | apply Forall_nil]|].
    split; [apply SSorted_cons; [apply SSorted_nil | apply Forall_nil]|].
    split; [reflexivity|]. intros jobId [=].
Qed.

Lemma X17_progress_reports_witness :
  StronglySorted reportLe
    (fst (VideoProcessingService.processVideoWithProgress
            (VideoProcessingService.Returned tt) (VideoProcessingService.Returned tt)
            (VideoProcessingService.Returned "job"%string)
            [VideoProcessingService.Returned
               (VideoProcessingService.mkJob VideoProcessingService.processing 20 None);
             VideoProcessingService.Returned
               (VideoProcessingService.mkJob VideoProcessingService.processing 60 None);
             VideoProcessingService.Returned
               (VideoProcessingService.mkJob VideoProcessingService.completed 100 None)])).
Proof.
  apply X17_progress_reports.
  - repeat (apply Forall_cons; [split; discriminate|]). apply Forall_nil.
  - repeat (apply SSorted_cons;
            [|repeat (apply Forall_cons; [cbn; discriminate|]); apply Forall_nil]).
    apply SSorted_nil.
Defined.



(** ** Mouse tracking in the main process *)

Lemma last_eta (l : ElectronMain.Last) :
  ElectronMain.mkLast (ElectronMain.lastX l) (ElectronMain.lastY l) = l.
Proof. destruct l. reflexivity. Qed.

Lemma tick_same (p : ElectronMain.Poll) (last : ElectronMain.Last) :
  pollAt p = last -> ElectronMain.tick p last = (last, None).
Proof.
  intros <-. unfold ElectronMain.tick, pollAt. cbn.
  rewrite !Z.eqb_refl. reflexivity.
Qed.

Lemma tick_changed (p : ElectronMain.Poll) (last : ElectronMain.Last) :
  pollAt p <> last ->
  ElectronMain.tick p last
  = (pollAt p,
     if ElectronMain.windowAlive p
     then Some (ElectronMain.mkMessage (ElectronMain.p_x p) (ElectronMain.p_y p)
                                       (ElectronMain.now p))
     else None).
Proof.
  intros Hne. unfold ElectronMain.tick.
  destruct ((ElectronMain.p_x p =? ElectronMain.lastX last)%Z
            && (ElectronMain.p_y p =? ElectronMain.lastY last)%Z) eqn:E;
    [|reflexivity].
  exfalso. apply Hne. apply andb_true_iff in E. destruct E as [Ex Ey].
  apply Z.eqb_eq in Ex. apply Z.eqb_eq in Ey. unfold pollAt.
  rewrite Ex, Ey. apply last_eta.
Qed.

Lemma Last_eq_dec (a b : ElectronMain.Last) : {a = b} + {a <> b}.
Proof. decide equality; apply Z.eq_dec. Qed.

(** With the window alive, from any remembered position: consecutive
    messages report different positions, the first one differs from the
    remembered position, and the last one reports the position remembered
    at the end. *)
Lemma run_alive (polls : list ElectronMain.Poll) :
  Forall (fun p => ElectronMain.windowAlive p = true) polls ->
  forall last0,
    let last := fst (ElectronMain.run polls last0) in
    let msgs := snd (ElectronMain.run polls last0) in
    Sorted moved msgs /\
    (forall m rest, msgs = m :: rest -> messageAt m <> last0) /\
    ((msgs = [] /\ last = last0 /\ Forall (fun p => pollAt p = last0) polls) \/
     (exists front m, msgs = front ++ [m] /\ messageAt m = last)) /\
    (List.length msgs <= List.length polls)%nat.
Proof.
  induction 1 as [|p polls Hp Hpolls IH]; intros last0; cbn zeta.
  - cbn. split; [constructor|]. split; [discriminate|]. split; [|lia].
    left. repeat split. constructor.
  - cbn [ElectronMain.run]. destruct (Last_eq_dec (pollAt p) last0) as [Heq | Hne].
    + rewrite (tick_same p last0 Heq).
      destruct (IH last0) as (Hs & Hfirst & Hlast & Hlen).
      destruct (ElectronMain.run polls last0) as [last2 later]. cbn [fst snd] in *.
      split; [exact Hs|]. split; [exact Hfirst|]. split; [|cbn [List.length]; lia].
      destruct Hlast as [(Hnil & Hl & Hall) | Hex]; [|right; exact Hex].
      left. repeat split; try assumption. constructor; assumption.
    + rewrite (tick_changed p last0 Hne), Hp.
      destruct (IH (pollAt p)) as (Hs & Hfirst & Hlast & Hlen).
      destruct (ElectronMain.run polls (pollAt p)) as [last2 later].
      cbn [fst snd] in *.
      split; [|split; [|split; [|cbn [List.length]; lia]]].
      * constructor; [exact Hs|]. destruct later as [|m later]; constructor.
        unfold moved. cbn. intro Hm. apply (Hfirst m later eq_refl).
        unfold messageAt, pollAt. injection Hm as -> ->. reflexivity.
      * intros m rest [= <- _]. exact Hne.
      * right. destruct Hlast as [(-> & -> & _) | (front & m & -> & Hm)].
        -- exists [], (ElectronMain.mkMessage (ElectronMain.p_x p) (ElectronMain.p_y p)
                                             (ElectronMain.now p)).
           split; reflexivity.
        -- exists (ElectronMain.mkMessage (ElectronMain.p_x p) (ElectronMain.p_y p)
                                          (ElectronMain.now p) :: front), m.
           split; [reflexivity | exact Hm].
Qed.

(** The remembered position follows the polls, window or not. *)
Lemma run_last (polls : list ElectronMain.Poll) :
  forall last0 front p,
    polls = front ++ [p] -> fst (ElectronMain.run polls last0) = pollAt p.
Proof.
  induction polls as [|q polls IH]; intros last0 front p E.
  - destruct front; discriminate.
  - cbn [ElectronMain.run].
    assert (Ht : fst (ElectronMain.tick q last0) = pollAt q).
    { destruct (Last_eq_dec (pollAt q) last0) as [Heq | Hne].
      - rewrite (tick_same q last0 Heq). symmetry. exact Heq.
      - rewrite (tick_changed q last0 Hne). reflexivity. }
    destruct (ElectronMain.tick q last0) as [last1 sent]. cbn [fst] in Ht. subst last1.
    destruct front as [|f front]; cbn [app] in E; injection E as Eq Epolls;
      subst polls.
    + subst q. cbn. reflexivity.
    + specialize (IH (pollAt q) front p eq_refl).
      destruct (ElectronMain.run (front ++ [p]) (pollAt q)) as [last2 later].
      exact IH.
Qed.

(** X19. While mouse tracking runs with the main window alive, two
    consecutive messages never report the same position, there are no
    more messages than polls, the last message reports the position
    of the last poll, and nothing is sent only if the pointer was at
    (-1, -1) at every poll.  A position first read while the window is
    destroyed is remembered all the same, so it is not sent when the
    window is back for as long as the pointer rests there. *)
Theorem X19_mouse_messages (polls : list ElectronMain.Poll) :
  (Forall (fun p => ElectronMain.windowAlive p = true) polls ->
   let msgs := snd (ElectronMain.run polls ElectronMain.initial) in
   Sorted moved msgs /\
   (List.length msgs <= List.length polls)%nat /\
   (forall front p front' m,
      polls = front ++ [p] -> msgs = front' ++ [m] ->
      ElectronMain.x m = ElectronMain.p_x p /\ ElectronMain.y m = ElectronMain.p_y p) /\
   (msgs = [] ->
    Forall (fun p => ElectronMain.p_x p = (-1)%Z /\ ElectronMain.p_y p = (-1)%Z) polls)) /\
  (forall p p' last,
     pollAt p <> last -> ElectronMain.windowAlive p = false ->
     pollAt p' = pollAt p ->
     snd (ElectronMain.run [p; p'] last) = []).
Proof.
  split.
  - intros Halive. cbn zeta.
    destruct (run_alive polls Halive ElectronMain.initial) as (Hs & _ & Hlast & Hlen).
    cbn zeta in *.
    split; [exact Hs|]. split; [exact Hlen|]. split.
    + intros front p front' m Hpolls Hmsgs.
      pose proof (run_last polls ElectronMain.initial front p Hpolls) as Hl.
      destruct Hlast as [(Hnil & _) | (f & m' & Hm' & Hat)].
      * rewrite Hnil in Hmsgs. destruct front'; discriminate.
      * rewrite Hmsgs in Hm'. apply app_inj_tail in Hm'. destruct Hm' as [_ <-].
        rewrite Hl in Hat. unfold messageAt, pollAt in Hat.
        injection Hat as -> ->. split; reflexivity.
    + intros Hnil. destruct Hlast as [(_ & _ & Hall) | (f & m & Hm & _)].
      * eapply Forall_impl; [|exact Hall]. intros p Hp. unfold pollAt in Hp.
        injection Hp as -> ->. split; reflexivity.
      * rewrite Hnil in Hm. destruct f; discriminate.
  - intros p p' last Hne Hdead Hsame. cbn [ElectronMain.run].
    rewrite (tick_changed p last Hne), Hdead, (tick_same p' (pollAt p) Hsame).
    reflexivity.
Qed.

Lemma X19_mouse_messages_witness :
  Sorted moved
    (snd (ElectronMain.run
            [ElectronMain.mkPoll 10 10 true 0; ElectronMain.mkPoll 10 10 true 16;
             ElectronMain.mkPoll 12 10 true 32]
            ElectronMain.initial)) /\
  snd (ElectronMain.run
         [ElectronMain.mkPoll 10 10 false 0; ElectronMain.mkPoll 10 10 true 16]
         ElectronMain.initial) = [].
Proof.
  split.
  - apply (proj1 (X19_mouse_messages _)).
    repeat (apply Forall_cons; [reflexivity|]). apply Forall_nil.
  - apply (proj2 (X19_mouse_messages [])); [discriminate | reflexivity | reflexivity].
Defined.

(** ** What a split keeps *)

(** With distinct ids a split either changes nothing or replaces the
    first clip that strictly contains the time by its two parts, the
    second of which is at least 0.1 long. *)
Lemma splitClips_cases (newId : string) (t : Q) (clips : list VideoClip.t) :
  NoDup (map VideoClip.id clips) ->
  App.splitClips newId t clips = clips \/
  exists pre c post,
    clips = pre ++ c :: post /\
    find (App.strictlyInside t) clips = Some c /\
    VideoClip.startTime c < t /\
    Double.binary64 0.1
    <= Double.sub (VideoClip.duration c) (Double.sub t (VideoClip.startTime c)) /\
    App.splitClips newId t clips
    = pre ++ VideoClip.withDuration c (Double.sub t (VideoClip.startTime c))
          :: VideoClip.Build newId t
               (Double.sub (VideoClip.duration c)
                           (Double.sub t (VideoClip.startTime c)))
               (VideoClip.name c) (VideoClip.type c) (VideoClip.text c)
               (VideoClip.titleStyle c) (VideoClip.source c)
               (VideoClip.width c) (VideoClip.height c)
          :: post.
Proof.
  intros Hnd. unfold App.splitClips.
  destruct (find (App.strictlyInside t) clips) as [c|] eqn:Hfind; [|left; reflexivity].
  destruct (Num.ltb (Double.sub t (VideoClip.startTime c)) (Double.binary64 0.1));
    [left; reflexivity|].
  destruct (Num.ltb (Double.sub (VideoClip.duration c)
                                (Double.sub t (VideoClip.startTime c)))
                    (Double.binary64 0.1)) eqn:E2; [left; reflexivity|].
  cbn [orb]. apply ltb_false_iff in E2.
  pose proof Hfind as Hfirst.
  apply find_first in Hfirst. destruct Hfirst as (pre & post & -> & Hc & _).
  right. exists pre, c, post. split; [reflexivity|].
  split; [reflexivity|].
  split; [exact (proj1 (proj1 (strictlyInside_iff t c) Hc))|].
  split; [exact E2|].
  unfold App.findIndex. rewrite findIndexFrom_first;
    [|apply (NoDup_ids_before pre c post Hnd) | apply String.eqb_refl].
  rewrite Z.add_0_l, splice_replace_one. reflexivity.
Qed.

Lemma find_app {A} (p : A -> bool) (l1 l2 : list A) :
  find p (l1 ++ l2)
  = match find p l1 with
    | Some a => Some a
    | None => find p l2
    end.
Proof.
  induction l1 as [|h l1 IH]; simpl; [reflexivity|].
  destruct (p h); [reflexivity | exact IH].
Qed.

(** The double that the literal [0.1] denotes is positive. *)
Lemma tenth_pos : 0 < Double.binary64 0.1.
Proof. vm_compute. reflexivity. Qed.

(** When the two differences are exact and the second part is at least
    0.1 long, the split time is before the exact end of the clip. *)
Lemma exactSplit_before_end (t : Q) (c : VideoClip.t) :
  exactSplit t c ->
  Double.binary64 0.1
  <= Double.sub (VideoClip.duration c) (Double.sub t (VideoClip.startTime c)) ->
  t < VideoClip.startTime c + VideoClip.duration c.
Proof.
  intros [E1 E2] Hmin. pose proof tenth_pos as Hpos.
  rewrite E2, E1 in Hmin. lra.
Qed.

(** X20. When the clip ids are pairwise distinct and the new id is not
    among them, a split keeps the ids pairwise distinct and adds at most
    one clip.  When moreover the two differences computed for the clip
    that is split are exact (no rounding takes place), the timeline
    duration does not change. *)
Theorem X20_split_keeps_timeline (newId : string) (t : Q)
        (clips : list VideoClip.t) (zooms : list ZoomEvent.t) :
  NoDup (map VideoClip.id clips) ->
  ~ In newId (map VideoClip.id clips) ->
  NoDup (map VideoClip.id (App.splitClips newId t clips)) /\
  (List.length (App.splitClips newId t clips) = List.length clips \/
   List.length (App.splitClips newId t clips) = S (List.length clips)) /\
  ((forall c, find (App.strictlyInside t) clips = Some c -> exactSplit t c) ->
   App.timelineDuration (App.splitClips newId t clips) zooms
   == App.timelineDuration clips zooms).
Proof.
  intros Hnd Hfresh. split; [apply splitClips_NoDup; assumption|].
  destruct (splitClips_cases newId t clips Hnd)
    as [-> | (pre & c & post & -> & Hfind & Hc1 & Hmin & ->)].
  - split; [left; reflexivity | reflexivity].
  - split; [right; rewrite !length_app; cbn [List.length]; lia|].
    intros Hexact. specialize (Hexact c Hfind).
    pose proof (exactSplit_before_end t c Hexact Hmin) as Hc2.
    destruct Hexact as [E1 E2].
    apply Qle_antisym; apply timelineDuration_mono;
      try (intros z Hz; exists z; split; [exact Hz | apply Qle_refl]).
    + intros x Hx. apply in_app_or in Hx.
      destruct Hx as [Hx | [<- | [<- | Hx]]].
      * exists x. split; [apply in_or_app; left; exact Hx | apply Qle_refl].
      * exists c. split; [apply in_or_app; right; left; reflexivity|].
        unfold clipEnd.
        cbn [VideoClip.startTime VideoClip.duration VideoClip.withDuration].
        rewrite E1. lra.
      * exists c. split; [apply in_or_app; right; left; reflexivity|].
        unfold clipEnd. cbn [VideoClip.startTime VideoClip.duration].
        rewrite E2, E1. lra.
      * exists x. split; [apply in_or_app; right; right; exact Hx | apply Qle_refl].
    + intros x Hx. apply in_app_or in Hx.
      destruct Hx as [Hx | [<- | Hx]].
      * exists x. split; [apply in_or_app; left; exact Hx | apply Qle_refl].
      * eexists. split; [apply in_or_app; right; right; left; reflexivity|].
        unfold clipEnd. cbn [VideoClip.startTime VideoClip.duration].
        rewrite E2, E1. lra.
      * exists x. split; [apply in_or_app; right; right; right; exact Hx
                          | apply Qle_refl].
Qed.

Lemma X20_split_keeps_timeline_witness :
  NoDup (map VideoClip.id (App.splitClips "uuid" 4 [demoClip; titleClip])) /\
  List.length (App.splitClips "uuid" 4 [demoClip; titleClip]) = 3%nat /\
  App.timelineDuration (App.splitClips "uuid" 4 [demoClip; titleClip]) [exampleZoom]
  == App.timelineDuration [demoClip; titleClip] [exampleZoom].
Proof.
  destruct (X20_split_keeps_timeline "uuid" 4 [demoClip; titleClip] [exampleZoom])
    as (Hnd & _ & Hsame).
  - repeat constructor; simpl; intuition discriminate.
  - simpl. intuition discriminate.
  - split; [exact Hnd|]. split; [vm_compute; reflexivity|].
    apply Hsame. intros c Hc. vm_compute in Hc. injection Hc as <-.
    split; vm_compute; reflexivity.
Defined.

Lemma halfOpen_parts (t' t : Q) (c : VideoClip.t) (newId : string) :
  VideoClip.startTime c < t ->
  t < VideoClip.startTime c + VideoClip.duration c ->
  exactSplit t c ->
  let A := VideoClip.withDuration c (Double.sub t (VideoClip.startTime c)) in
  let B := VideoClip.Build newId t
             (Double.sub (VideoClip.duration c)
                         (Double.sub t (VideoClip.startTime c)))
             (VideoClip.name c) (VideoClip.type c) (VideoClip.text c)
             (VideoClip.titleStyle c) (VideoClip.source c)
             (VideoClip.width c) (VideoClip.height c) in
  (Edit.halfOpenContains t' A = true -> Edit.halfOpenContains t' B = false) /\
  Edit.halfOpenContains t' c
  = Edit.halfOpenContains t' A || Edit.halfOpenContains t' B.
Proof.
  intros H1 H2 [E1 E2]. cbn zeta.
  set (A := VideoClip.withDuration c _). set (B := VideoClip.Build newId _ _ _ _ _ _ _ _ _).
  assert (HA : Edit.halfOpenContains t' A = true
               <-> VideoClip.startTime c <= t' /\ t' < t).
  { rewrite halfOpenContains_iff. subst A.
    cbn [VideoClip.startTime VideoClip.duration VideoClip.withDuration].
    rewrite E1. split; intros [? ?]; split; lra. }
  assert (HB : Edit.halfOpenContains t' B = true
               <-> t <= t' /\ t' < VideoClip.startTime c + VideoClip.duration c).
  { rewrite halfOpenContains_iff. subst B.
    cbn [VideoClip.startTime VideoClip.duration].
    rewrite E2, E1. split; intros [? ?]; split; lra. }
  pose proof (halfOpenContains_iff t' c) as HC.
  split.
  - intros Ha. apply HA in Ha. apply not_true_is_false. intro Hb.
    apply HB in Hb. lra.
  - apply eq_true_iff_eq. rewrite orb_true_iff, HA, HB, HC. split.
    + intros [Hs He]. destruct (Qlt_le_dec t' t); [left | right]; split; lra.
    + intros [[Hs He] | [Hs He]]; split; lra.
Qed.

(** X21. With pairwise distinct clip ids, a split in which the two
    differences computed for the clip that is split are exact (no rounding
    takes place) does not change what is shown at any time: at every
    time the active clip after the split has the name, type, text, title
    style, source and dimensions of the clip that was active before, and
    there is an active clip exactly when there was one. *)
Theorem X21_split_keeps_content (newId : string) (t t' : Q)
        (clips : list VideoClip.t) :
  NoDup (map VideoClip.id clips) ->
  (forall c, find (App.strictlyInside t) clips = Some c -> exactSplit t c) ->
  option_map shown (Edit.activeClip (App.splitClips newId t clips) t')
  = option_map shown (Edit.activeClip clips t').
Proof.
  intros Hnd Hexact.
  destruct (splitClips_cases newId t clips Hnd)
    as [-> | (pre & c & post & -> & Hfind & Hc1 & Hmin & ->)]; [reflexivity|].
  specialize (Hexact c Hfind).
  pose proof (exactSplit_before_end t c Hexact Hmin) as Hc2.
  destruct (halfOpen_parts t' t c newId Hc1 Hc2 Hexact) as [Hexcl Hsplit].
  cbn zeta in *. unfold Edit.activeClip.
  rewrite !rev_app_distr. cbn [rev]. rewrite <- !app_assoc. cbn [app].
  rewrite !find_app. destruct (find _ (rev post)); [reflexivity|].
  cbn [find]. rewrite Hsplit.
  destruct (Edit.halfOpenContains t' (VideoClip.Build newId _ _ _ _ _ _ _ _ _));
    [rewrite orb_true_r; reflexivity|].
  rewrite orb_false_r.
  destruct (Edit.halfOpenContains t' (VideoClip.withDuration c _)); reflexivity.
Qed.

Lemma X21_split_keeps_content_witness :
  option_map shown (Edit.activeClip (App.splitClips "uuid" 4 [demoClip; titleClip]) 7)
  = option_map shown (Edit.activeClip [demoClip; titleClip] 7).
Proof.
  apply X21_split_keeps_content.
  - repeat constructor; simpl; intuition discriminate.
  - intros c Hc. vm_compute in Hc. injection Hc as <-.
    split; vm_compute; reflexivity.
Defined.

(** ** The clock across pauses and frames *)

Lemma frame_paused (time : Q) (s : App.State) :
  App.isPlaying s = false -> App.isPlayingRef s = false ->
  App.previousTimeRef s = None ->
  App.frame time s = s.
Proof.
  intros Hp Hr Hprev. unfold App.frame, App.animate, App.effectIsPlaying.
  rewrite Hr. cbn [negb].
  destruct s; cbn in *. subst. reflexivity.
Qed.

Lemma frames_paused (times : list Q) (s : App.State) :
  App.isPlaying s = false -> App.isPlayingRef s = false ->
  App.previousTimeRef s = None ->
  App.frames times s = s.
Proof.
  intros Hp Hr Hprev. unfold App.frames.
  induction times as [|time times IH]; [reflexivity|].
  cbn [fold_left]. rewrite (frame_paused time s Hp Hr Hprev). exact IH.
Qed.

(** X22. Pausing forgets the time of the previous frame: while paused,
    frames change nothing, and the first frame after resuming leaves the
    current time where it was when playback was paused, however long the
    pause lasted, and only records its own time. *)
Theorem X22_pause_resume (s : App.State) (times : list Q) (time : Q) :
  App.isPlaying s = true ->
  let paused := Playback.togglePlay s in
  let resumed := Playback.togglePlay (App.frames times paused) in
  App.frames times paused = paused /\
  App.isPlaying paused = false /\
  App.currentTime paused = App.currentTime s /\
  App.isPlaying resumed = true /\
  App.currentTime (App.frame time resumed) = App.currentTime s /\
  App.previousTimeRef (App.frame time resumed) = Some time /\
  App.isPlaying (App.frame time resumed) = true.
Proof.
  intros Hplay. cbn zeta.
  assert (Hpaused : Playback.togglePlay s
                    = App.setPreviousTimeRef None
                        (App.setIsPlayingRef false (App.setIsPlaying false s))).
  { unfold Playback.togglePlay, App.effectIsPlaying. rewrite Hplay. reflexivity. }
  rewrite Hpaused.
  rewrite frames_paused by reflexivity.
  split; [reflexivity|]. split; [reflexivity|]. split; [reflexivity|].
  unfold Playback.togglePlay, App.frame, App.animate, App.effectIsPlaying. cbn.
  repeat split.
Qed.

Lemma X22_pause_resume_witness :
  App.currentTime
    (App.frame 900000
       (Playback.togglePlay
          (App.frames [2000; 3000] (Playback.togglePlay exampleLastFrame))))
  = App.currentTime exampleLastFrame.
Proof.
  apply (X22_pause_resume exampleLastFrame [2000; 3000] 900000). reflexivity.
Defined.





(** ** Frames extracted for the suggestion service *)

Section Frames.

Variable toDataURL : Q -> string.
Variable duration : Q.

Local Abbreviation capture := (GeminiService.captureFrame toDataURL duration 3.0).

Lemma capture_unfold (fuel : nat) c frames :
  capture (S fuel) c frames
  = if Num.geb c duration then Some frames
    else capture fuel (c + 3.0)
                 (frames ++ [GeminiService.mkFrame c (toDataURL c)]).
Proof. reflexivity. Qed.

Lemma capture_more_fuel (fuel : nat) :
  forall c frames result,
    capture fuel c frames = Some result ->
    capture (S fuel) c frames = Some result.
Proof.
  induction fuel as [|fuel IH]; intros c frames result; [discriminate|].
  rewrite (capture_unfold (S fuel)), (capture_unfold fuel).
  destruct (Num.geb c duration); [trivial|].
  intros H. apply IH in H. exact H.
Qed.

Lemma capture_enough_fuel (fuel fuel' : nat) c frames result :
  (fuel <= fuel')%nat ->
  capture fuel c frames = Some result ->
  capture fuel' c frames = Some result.
Proof.
  induction 1 as [|fuel' Hle IH]; intros H; [exact H|].
  apply capture_more_fuel. apply IH. exact H.
Qed.

(** From the [k]-th multiple of 3, [n] more calls are enough when the
    [(k + n)]-th multiple reaches the duration. *)
Lemma capture_spec (n : nat) :
  forall (k : nat) c frames,
    c == inject_Z (Z.of_nat k) * 3 ->
    duration <= inject_Z (Z.of_nat (k + n)) * 3 ->
    exists new,
      capture (S n) c frames = Some (frames ++ new) /\
      (List.length new <= n)%nat /\
      Forall (frameOk toDataURL duration) new /\
      (duration <= c -> new = []) /\
      (c < duration -> exists f rest, new = f :: rest /\ GeminiService.time f = c) /\
      (forall (i : nat) f,
          nth_error new i = Some f ->
          GeminiService.time f == inject_Z (Z.of_nat (k + i)) * 3).
Proof.
  induction n as [|n IH]; intros k c frames Hc Hend.
  - exists []. rewrite Nat.add_0_r in Hend. rewrite capture_unfold.
    replace (Num.geb c duration) with true by (symmetry; apply geb_iff; lra).
    rewrite app_nil_r. split; [reflexivity|]. split; [cbn; lia|].
    split; [constructor|]. split; [reflexivity|].
    split; [intros Hlt; lra|]. intros [|i] f; discriminate.
  - rewrite capture_unfold.
    destruct (Num.geb c duration) eqn:E.
    + exists []. rewrite app_nil_r. apply geb_iff in E.
      split; [reflexivity|]. split; [cbn; lia|]. split; [constructor|].
      split; [reflexivity|]. split; [intros Hlt; lra|].
      intros [|i] f; discriminate.
    + apply geb_false_iff in E.
      destruct (IH (S k) (c + 3.0)
                   (frames ++ [GeminiService.mkFrame c (toDataURL c)]))
        as (new & Hcap & Hlen & Hok & _ & _ & Hnth).
      * rewrite Hc. rewrite Nat2Z.inj_succ. unfold Z.succ. rewrite inject_Z_plus.
        field.
      * replace (S k + n)%nat with (k + S n)%nat by lia. exact Hend.
      * exists (GeminiService.mkFrame c (toDataURL c) :: new).
        split; [rewrite Hcap, <- app_assoc; reflexivity|].
        split; [cbn [List.length]; lia|]. split; [|split; [|split]].
        -- constructor; [|exact Hok]. unfold frameOk. cbn.
           split; [|split; [reflexivity | exists k; exact Hc]].
           split; [|exact E]. rewrite Hc.
           apply Qmult_le_0_compat; [|discriminate].
           change 0 with (inject_Z 0). rewrite <- Zle_Qle. lia.
        -- intros Hge. lra.
        -- intros _. eexists. eexists. split; reflexivity.
        -- intros [|i] f Hf; cbn in Hf.
           ++ injection Hf as <-. cbn. rewrite Nat.add_0_r. exact Hc.
           ++ apply Hnth in Hf. rewrite Hf.
              replace (S k + i)%nat with (k + S i)%nat by lia. reflexivity.
Qed.

End Frames.

(** X24. The frames sent for analysis: [analyzeVideoForZooms] extracts
    frames every 3 seconds over [Math.min(duration, 30)].  Whatever the
    duration of the recording, eleven calls of [captureFrame] are enough
    for the extraction to resolve, and more calls resolve to the same
    frames; at most 10 frames are extracted; the [i]-th frame is taken at
    [3 i] seconds, a time before both the duration and 30 seconds, and
    holds the image drawn at that time; and no frame is extracted exactly
    when the duration is not positive. *)
Theorem X24_frames_to_analyze (toDataURL : Q -> string) (duration : Q)
        (fuel : nat) :
  (11 <= fuel)%nat ->
  exists frames,
    GeminiService.framesToAnalyze toDataURL duration fuel = Some frames /\
    (List.length frames <= 10)%nat /\
    (forall (i : nat) f,
        nth_error frames i = Some f ->
        GeminiService.time f == inject_Z (Z.of_nat i) * 3 /\
        GeminiService.time f < duration /\
        GeminiService.time f < 30 /\
        GeminiService.base64 f = toDataURL (GeminiService.time f)) /\
    (frames = [] <-> duration <= 0).
Proof.
  intros Hfuel.
  assert (Hmin30 : Num.min duration 30 <= 30) by apply Q.le_min_r.
  assert (Hmind : Num.min duration 30 <= duration) by apply Q.le_min_l.
  destruct (capture_spec toDataURL (Num.min duration 30) 10 0 0 [])
    as (frames & Hcap & Hlen & Hok & Hnone & Hsome & Hnth).
  - reflexivity.
  - cbn [Nat.add]. exact Hmin30.
  - exists frames. split; [|split; [exact Hlen|split]].
    + unfold GeminiService.framesToAnalyze, GeminiService.extractFramesFromVideo.
      apply (capture_enough_fuel toDataURL (Num.min duration 30) 11 fuel);
        [exact Hfuel | exact Hcap].
    + intros i f Hf. split; [exact (Hnth i f Hf)|].
      apply nth_error_In in Hf. rewrite Forall_forall in Hok.
      destruct (Hok f Hf) as ((_ & Hlt) & Himg & _).
      repeat split; [lra | lra | exact Himg].
    + split.
      * intros ->. destruct (Qlt_le_dec 0 (Num.min duration 30)) as [Hpos|Hle].
        -- destruct (Hsome Hpos) as (f & rest & Hcons & _). discriminate.
        -- unfold Num.min in Hle.
           destruct (Q.min_spec duration 30) as [[_ E]|[_ E]];
             rewrite E in Hle; lra.
      * intros Hle. apply Hnone. lra.
Qed.

Lemma X24_frames_to_analyze_witness :
  (11 <= 12)%nat /\
  exists frames,
    GeminiService.framesToAnalyze (fun _ => "data:image/jpeg"%string) 7 12
    = Some frames /\
    (List.length frames <= 10)%nat /\
    (forall (i : nat) f,
        nth_error frames i = Some f ->
        GeminiService.time f == inject_Z (Z.of_nat i) * 3 /\
        GeminiService.time f < 7 /\
        GeminiService.time f < 30 /\
        GeminiService.base64 f
        = (fun _ => "data:image/jpeg"%string) (GeminiService.time f)) /\
    (frames = [] <-> 7 <= 0).
Proof.
  split; [lia|].
  apply (X24_frames_to_analyze (fun _ => "data:image/jpeg"%string) 7 12). lia.
Defined.
